(** * ghcontributions: the reporting package and its driver

    A shallow embedding of [reporting.Reporter] (construction with year
    normalisation, the descending year loop of [Collect], the reduction of
    [Aggregate], the JSON of [Report]) and of the credential loop of
    [main], followed by the properties of the specification.

    Conventions of the embedding.
    - Go's [int] is taken at 64 bits and written as [Z] with the
      wrap-around of every addition and subtraction spelled out
      ([GoInt.wrap]); [githubv4.Int] is a 32-bit integer.
    - The package-level map [queryResults] is threaded explicitly as a
      [gmap string QueryResult.t].
    - Everything a function prints or asks of the remote service is
      returned as a chronological list of [Event]s.
    - A call that ends the process ([log.Fatal]) or panics is an
      [Outcome] of its own, so that code placed after it is visibly not
      run. *)

From Stdlib Require Import ZArith Lia DecimalString DecimalPos DecimalZ.
From stdpp Require Import gmap strings list fin_maps.

#[local] Set Warnings "-clear-no-such-hyp".

Open Scope Z_scope.

(** ** Machine integers *)

Module GoInt.

Definition intSize : Z := 64.
Definition minInt : Z := - 2 ^ (intSize - 1).
Definition maxInt : Z := 2 ^ (intSize - 1) - 1.

(** The value an [int] holds after an operation whose mathematical
    result is [z]: two's complement wrap-around. *)
Definition wrap (z : Z) : Z :=
  (z + 2 ^ (intSize - 1)) mod 2 ^ intSize - 2 ^ (intSize - 1).

Definition add (a b : Z) : Z := wrap (a + b).
Definition sub (a b : Z) : Z := wrap (a - b).

Definition in_range (z : Z) : Prop := minInt <= z <= maxInt.

(** [githubv4.Int] is [int32]. *)
Definition in_int32 (z : Z) : Prop := - 2 ^ 31 <= z <= 2 ^ 31 - 1.

End GoInt.

(** ** The pieces of the Go library the package uses *)

Module strconv.

(** [strconv.Itoa]: decimal digits, a leading minus sign for negatives. *)
Definition Itoa (i : Z) : string := NilZero.string_of_int (Z.to_int i).

End strconv.

Definition error : Type := string.

Module fmt.

(** [fmt.Errorf("user %s cannot be blank in constructing a query", user)] *)
Definition Errorf_blank_user (user : string) : error :=
  "user " +:+ user +:+ " cannot be blank in constructing a query".

(** [fmt.Sprintf] of the two warnings of [NewReporter], each with one [%d]. *)
Definition Sprintf_future (thisYear : Z) : string :=
  "the last reporting year can't be in the future. Using "
    +:+ strconv.Itoa thisYear.

Definition Sprintf_earlier (thisYear : Z) : string :=
  "the last reporting year can't be earlier than the first year. Using "
    +:+ strconv.Itoa thisYear.

End fmt.

(** ** The data model *)

Module QueryResult.

Record RepositoryT := { Name : string; URL : string }.

Record ContributionsT := { TotalCount : Z }.

(** One element of the four [...ContributionsByRepository] slices. *)
Record ByRepository := {
  Repository : RepositoryT;
  Contributions : ContributionsT
}.

Record ContributionsCollectionT := {
  HasAnyContributions : bool;
  HasActivityInThePast : bool;
  RestrictedContributionsCount : Z;
  TotalCommitContributions : Z;
  TotalIssueContributions : Z;
  TotalPullRequestContributions : Z;
  TotalPullRequestReviewContributions : Z;
  TotalRepositoriesWithContributedIssues : Z;
  TotalRepositoriesWithContributedCommits : Z;
  TotalRepositoriesWithContributedPullRequests : Z;
  TotalRepositoriesWithContributedPullRequestReviews : Z;
  CommitContributionsByRepository : list ByRepository;
  IssueContributionsByRepository : list ByRepository;
  PullRequestContributionsByRepository : list ByRepository;
  PullRequestReviewContributionsByRepository : list ByRepository
}.

Record UserT := {
  Login : string;
  ContributionsCollection : ContributionsCollectionT
}.

Record t := { User : UserT }.

(** [QueryResult{}]: every field at its zero value. *)
Definition zero : t :=
  {| User :=
       {| Login := EmptyString;
          ContributionsCollection :=
            {| HasAnyContributions := false;
               HasActivityInThePast := false;
               RestrictedContributionsCount := 0;
               TotalCommitContributions := 0;
               TotalIssueContributions := 0;
               TotalPullRequestContributions := 0;
               TotalPullRequestReviewContributions := 0;
               TotalRepositoriesWithContributedIssues := 0;
               TotalRepositoriesWithContributedCommits := 0;
               TotalRepositoriesWithContributedPullRequests := 0;
               TotalRepositoriesWithContributedPullRequestReviews := 0;
               CommitContributionsByRepository := [];
               IssueContributionsByRepository := [];
               PullRequestContributionsByRepository := [];
               PullRequestReviewContributionsByRepository := [] |} |} |}.

End QueryResult.

Module AggregatedResults.

Record t := {
  Timestamp : Z;
  TotalCommitContributions : Z;
  TotalRepositories : Z;
  TotalOtherContributions : Z
}.

(** [AggregatedResults{}] *)
Definition zero : t :=
  {| Timestamp := 0;
     TotalCommitContributions := 0;
     TotalRepositories := 0;
     TotalOtherContributions := 0 |}.

End AggregatedResults.

Module githubv4.

(** What [Client.Query(ctx, &queryResult, variables)] does, seen from
    the package: given the login and the window of the variables map
    (both ends of the window are functions of [targetYear] alone, so the
    year stands for them) and the current content of the struct behind
    the pointer, it leaves a new content there and returns an error or
    [nil]. *)
Definition Client : Type :=
  string -> Z -> QueryResult.t -> QueryResult.t * option error.

End githubv4.

(** ** Observable effects *)

Inductive Event :=
| Logged (line : string)
| Queried (login : string) (targetYear : Z)
          (result : QueryResult.t) (err : option error).

Definition Trace : Type := list Event.

(** How a call ends: it returns, it ends the process with an exit status
    ([log.Fatal] is [os.Exit(1)] after printing), or it panics. *)
Inductive Outcome (A : Type) :=
| Returned (a : A)
| Exited (status : Z)
| Panicked.

Arguments Returned {A} a.
Arguments Exited {A} status.
Arguments Panicked {A}.

(** Modelled from the spec: the constant [DefaultFirstContributionYear] is
    declared in a file of the package that is not among the sources; the
    specification names the floor as the year 2000 (and so do the comments
    of [Reporter] and the default of the [-firstyear] flag). *)
Definition DefaultFirstContributionYear : Z := 2000.

(** A GitHub user name and its API token. *)
Record Credential := { Username : string; Token : string }.

Definition Credentials : Type := list Credential.

(** ** The reporter *)

Module Reporter.

Record t := {
  Client : option githubv4.Client;   (* a pointer: [None] is [nil] *)
  User : string;
  LastYear : Z;
  FirstYear : Z
}.

(** [Reporter{}] *)
Definition zero : t :=
  {| Client := None; User := EmptyString; LastYear := 0; FirstYear := 0 |}.

(** [NewReporter]; [thisYear] is [time.Now().UTC().Year()]. The receiver
    is not read. The result is the pair of return values and what was
    logged. *)
Definition NewReporter (r : t) (client : option githubv4.Client)
    (user : string) (firstYear lastYear : Z) (thisYear : Z)
    : (t * option error) * Trace :=
  if String.eqb user EmptyString then
    ((zero, Some (fmt.Errorf_blank_user user)), [])
  else
    let firstYear :=
      if (firstYear <? DefaultFirstContributionYear) || (firstYear >? thisYear)
      then DefaultFirstContributionYear else firstYear in
    let '(lastYear, log1) :=
      if lastYear >? thisYear
      then (thisYear, [Logged (fmt.Sprintf_future thisYear)])
      else (lastYear, []) in
    let '(lastYear, log2) :=
      if (lastYear =? 0) || (lastYear <? firstYear)
      then (thisYear, [Logged (fmt.Sprintf_earlier thisYear)])
      else (lastYear, []) in
    (({| Client := client; User := user;
         LastYear := lastYear; FirstYear := firstYear |}, None),
     log1 ++ log2).

(** The [for] loop of [Collect], entered at the test of its condition with
    the loop variable at [targetYear]; [queryResult] is the variable the
    client decodes into, which lives across iterations. [fuel] bounds the
    number of iterations and [None] means that it ran out. The shadowing
    [err] of the loop never reaches the named result, so the function
    returns [nil] whenever it returns; on an error of the client
    [log.Fatal] ends the process and the [return err] under it is not
    reached. The slices of a stored copy are taken as values. *)
Fixpoint Collect_loop (fuel : nat) (r : t) (targetYear : Z)
    (queryResult : QueryResult.t) (queryResults : gmap string QueryResult.t)
    : option (Outcome (option error) * gmap string QueryResult.t * Trace) :=
  match fuel with
  | O => None
  | S fuel =>
    if targetYear >=? FirstYear r then
      match Client r with
      | None => Some (Panicked, queryResults, [])
      | Some client =>
        let '(queryResult, err) := client (User r) targetYear queryResult in
        let asked := Queried (User r) targetYear queryResult err in
        match err with
        | Some err => Some (Exited 1, queryResults, [asked; Logged err])
        | None =>
          let '(queryResults, stored) :=
            if negb (String.eqb
                       queryResult.(QueryResult.User).(QueryResult.Login)
                       EmptyString)
            then
              let userYear := User r +:+ "-" +:+ strconv.Itoa targetYear in
              (<[userYear := queryResult]> queryResults, [Logged userYear])
            else (queryResults, []) in
          let hasActivityInThePast :=
            queryResult.(QueryResult.User)
                       .(QueryResult.ContributionsCollection)
                       .(QueryResult.HasActivityInThePast) in
          if negb hasActivityInThePast then
            Some (Returned None, queryResults, asked :: stored)
          else
            match Collect_loop fuel r (GoInt.sub targetYear 1)
                               queryResult queryResults with
            | Some (out, queryResults, rest) =>
              Some (out, queryResults, asked :: stored ++ rest)
            | None => None
            end
        end
      end
    else Some (Returned None, queryResults, [])
  end.

Definition Collect (fuel : nat) (r : t)
    (queryResults : gmap string QueryResult.t)
    : option (Outcome (option error) * gmap string QueryResult.t * Trace) :=
  match Collect_loop fuel r (LastYear r) QueryResult.zero queryResults with
  | Some (out, queryResults, tr) =>
    Some (out, queryResults, Logged "fetching repository statistics..." :: tr)
  | None => None
  end.

(** The [if] of the loop body that stores the answer, on its own: what a
    round writes to the map and to the log when the client returned no
    error. *)
Definition store_round (r : t) (targetYear : Z) (queryResult : QueryResult.t)
    (queryResults : gmap string QueryResult.t)
    : gmap string QueryResult.t * Trace :=
  if negb (String.eqb queryResult.(QueryResult.User).(QueryResult.Login)
                      EmptyString)
  then (<[User r +:+ "-" +:+ strconv.Itoa targetYear := queryResult]> queryResults,
        [Logged (User r +:+ "-" +:+ strconv.Itoa targetYear)])
  else (queryResults, []).

(** The calls of the client recorded in a trace, in the order they were
    made: the year asked about, the content left behind the pointer and
    the error returned. *)
Fixpoint queries (tr : Trace) : list (Z * QueryResult.t * option error) :=
  match tr with
  | [] => []
  | Queried _ targetYear result err :: tr => (targetYear, result, err) :: queries tr
  | Logged _ :: tr => queries tr
  end.

Definition queried_years (tr : Trace) : list Z := (queries tr).*1.*1.

Definition hasActivityInThePast (q : QueryResult.t) : bool :=
  q.(QueryResult.User).(QueryResult.ContributionsCollection)
   .(QueryResult.HasActivityInThePast).

(** One of the four inner loops of [Aggregate]:
    [uniqueRepositories[name] = uniqueRepositories[name] + 1] for each
    element; reading an absent key of a Go map gives the zero value. *)
Definition count_repositories (repositories : list QueryResult.ByRepository)
    (uniqueRepositories : gmap string Z) : gmap string Z :=
  foldl (fun uniqueRepositories repository =>
           let name := repository.(QueryResult.Repository).(QueryResult.Name) in
           <[name := GoInt.add (default 0 (uniqueRepositories !! name)) 1]>
             uniqueRepositories)
        uniqueRepositories repositories.

(** The body of the outer loop of [Aggregate] on one entry of the map: the
    state is the result under construction, the map of names and the
    lines logged so far (latest first). *)
Definition Aggregate_step
    (acc : AggregatedResults.t * gmap string Z * list Event)
    (entry : string * QueryResult.t)
    : AggregatedResults.t * gmap string Z * list Event :=
  let '(aggregatedResults, uniqueRepositories, logged) := acc in
  let '(userYear, queryResult) := entry in
  let cc := queryResult.(QueryResult.User).(QueryResult.ContributionsCollection) in
  let aggregatedResults :=
    {| AggregatedResults.Timestamp :=
         aggregatedResults.(AggregatedResults.Timestamp);
       AggregatedResults.TotalCommitContributions :=
         GoInt.add aggregatedResults.(AggregatedResults.TotalCommitContributions)
                   cc.(QueryResult.TotalCommitContributions);
       AggregatedResults.TotalRepositories :=
         aggregatedResults.(AggregatedResults.TotalRepositories);
       AggregatedResults.TotalOtherContributions :=
         GoInt.add aggregatedResults.(AggregatedResults.TotalOtherContributions)
                   (GoInt.add
                      (GoInt.add cc.(QueryResult.TotalIssueContributions)
                                 cc.(QueryResult.TotalPullRequestContributions))
                      cc.(QueryResult.TotalPullRequestReviewContributions)) |} in
  let uniqueRepositories :=
    count_repositories cc.(QueryResult.CommitContributionsByRepository)
                       uniqueRepositories in
  let uniqueRepositories :=
    count_repositories cc.(QueryResult.IssueContributionsByRepository)
                       uniqueRepositories in
  let uniqueRepositories :=
    count_repositories cc.(QueryResult.PullRequestContributionsByRepository)
                       uniqueRepositories in
  let uniqueRepositories :=
    count_repositories cc.(QueryResult.PullRequestReviewContributionsByRepository)
                       uniqueRepositories in
  (aggregatedResults, uniqueRepositories, Logged userYear :: logged).

(** [Aggregate]. A [range] over a Go map visits every entry once, in an
    order the language leaves open: [order] is the list of the entries of
    [*queryResults] in the order of this visit ([Report] passes the address
    of the package-level map, never [nil]). [now] is [time.Now().Unix()].
    The receiver is not read. *)
Definition Aggregate (r : t) (order : list (string * QueryResult.t)) (now : Z)
    : (AggregatedResults.t * option error) * Trace :=
  let '(aggregatedResults, uniqueRepositories, logged) :=
    foldl Aggregate_step (AggregatedResults.zero, ∅, []) order in
  (({| AggregatedResults.Timestamp := GoInt.wrap now;
       AggregatedResults.TotalCommitContributions :=
         aggregatedResults.(AggregatedResults.TotalCommitContributions);
       AggregatedResults.TotalRepositories :=
         Z.of_nat (size uniqueRepositories);
       AggregatedResults.TotalOtherContributions :=
         aggregatedResults.(AggregatedResults.TotalOtherContributions) |},
    None),
   rev logged).

(** [json.MarshalIndent] of the result with an empty prefix and an indent
    of two spaces: the four fields under their JSON tags, in the order of
    declaration. *)
Definition MarshalIndent (a : AggregatedResults.t) : string :=
  let quote := String (Ascii.ascii_of_nat 34) EmptyString in
  let newline := String (Ascii.ascii_of_nat 10) EmptyString in
  let field (tag : string) (v : Z) :=
    "  " +:+ quote +:+ tag +:+ quote +:+ ": " +:+ strconv.Itoa v in
  "{" +:+ newline
  +:+ field "timestamp" a.(AggregatedResults.Timestamp) +:+ "," +:+ newline
  +:+ field "totalCommitContributions"
            a.(AggregatedResults.TotalCommitContributions) +:+ "," +:+ newline
  +:+ field "totalRepositories"
            a.(AggregatedResults.TotalRepositories) +:+ "," +:+ newline
  +:+ field "totalOtherContributions"
            a.(AggregatedResults.TotalOtherContributions) +:+ newline
  +:+ "}".

(** [Report], over the package-level map as [Aggregate] ranges over it. *)
Definition Report (r : t) (order : list (string * QueryResult.t)) (now : Z)
    : (string * option error) * Trace :=
  let '((aggregatedResults, err), tr) := Aggregate r order now in
  match err with
  | Some err => ((EmptyString, Some err), tr)
  | None => ((MarshalIndent aggregatedResults, None), tr)
  end.

End Reporter.

(** ** The driver *)

Module Main.

Record Configuration := {
  credentialsAreEncrypted : bool;
  credentialsFilePath : string;
  firstReportingYear : Z;
  lastReportingYear : Z
}.

(** The loop of [main] over the credentials. [github] stands for the
    service behind [githubv4.NewClient(oauth2.NewClient(..))]: the client a
    token gives. [reporter] is the variable of [main] that every round
    overwrites. *)
Fixpoint credentials_loop (fuel : nat) (github : string -> githubv4.Client)
    (config : Configuration) (thisYear : Z) (credentials : list Credential)
    (reporter : Reporter.t) (queryResults : gmap string QueryResult.t)
    : option (Outcome Reporter.t * gmap string QueryResult.t * Trace) :=
  match credentials with
  | [] => Some (Returned reporter, queryResults, [])
  | credential :: credentials =>
    let apiClient := Some (github (Token credential)) in
    let firstYear := firstReportingYear config in
    let lastYear := lastReportingYear config in
    let '((reporter, err), warned) :=
      Reporter.NewReporter reporter apiClient (Username credential)
                           firstYear lastYear thisYear in
    match err with
    | Some err =>
      Some (Exited 1, queryResults,
            warned ++ [Logged ("Couldn't create a reporter object: " +:+ err)])
    | None =>
      match Reporter.Collect fuel reporter queryResults with
      | None => None
      | Some (Returned err, queryResults, collected) =>
        let printed := match err with Some err => [Logged err] | None => [] end in
        match credentials_loop fuel github config thisYear credentials
                               reporter queryResults with
        | Some (out, queryResults, rest) =>
          Some (out, queryResults, warned ++ collected ++ printed ++ rest)
        | None => None
        end
      | Some (Exited status, queryResults, collected) =>
        Some (Exited status, queryResults, warned ++ collected)
      | Some (Panicked, queryResults, collected) =>
        Some (Panicked, queryResults, warned ++ collected)
      end
    end
  end.

(** [main] from the credential loop on; the flags, the credentials file and
    its decoding give [config] and [credentials]. [range] is the order in
    which the final [Aggregate] visits the map and [now] its clock. *)
Definition main (fuel : nat) (github : string -> githubv4.Client)
    (config : Configuration) (thisYear : Z) (credentials : list Credential)
    (range : gmap string QueryResult.t -> list (string * QueryResult.t))
    (now : Z)
    : option (Outcome unit * gmap string QueryResult.t * Trace) :=
  match credentials_loop fuel github config thisYear credentials
                         Reporter.zero ∅ with
  | None => None
  | Some (Returned reporter, queryResults, tr) =>
    let '((aggregatedResults, _), reported) :=
      Reporter.Report reporter (range queryResults) now in
    Some (Returned tt, queryResults,
          tr ++ reported ++ [Logged aggregatedResults])
  | Some (Exited status, queryResults, tr) =>
    Some (Exited status, queryResults, tr)
  | Some (Panicked, queryResults, tr) => Some (Panicked, queryResults, tr)
  end.

End Main.

(** ** What the totals are measured against *)

Module Totals.

Definition sum_over {A : Type} (f : A -> Z) (l : list A) : Z :=
  foldr (fun x s => f x + s) 0 l.

Definition commits (q : QueryResult.t) : Z :=
  q.(QueryResult.User).(QueryResult.ContributionsCollection)
   .(QueryResult.TotalCommitContributions).

(** Issues, pull requests and reviews of one snapshot. *)
Definition others (q : QueryResult.t) : Z :=
  let cc := q.(QueryResult.User).(QueryResult.ContributionsCollection) in
  cc.(QueryResult.TotalIssueContributions)
  + cc.(QueryResult.TotalPullRequestContributions)
  + cc.(QueryResult.TotalPullRequestReviewContributions).

Definition name_of (repository : QueryResult.ByRepository) : string :=
  repository.(QueryResult.Repository).(QueryResult.Name).

(** The names in the four lists of one snapshot, with repetitions. *)
Definition repository_names (q : QueryResult.t) : list string :=
  let cc := q.(QueryResult.User).(QueryResult.ContributionsCollection) in
  name_of <$> (cc.(QueryResult.CommitContributionsByRepository)
               ++ cc.(QueryResult.IssueContributionsByRepository)
               ++ cc.(QueryResult.PullRequestContributionsByRepository)
               ++ cc.(QueryResult.PullRequestReviewContributionsByRepository)).

(** The counts of a snapshot are [githubv4.Int]s. *)
Definition counts_int32 (q : QueryResult.t) : Prop :=
  let cc := q.(QueryResult.User).(QueryResult.ContributionsCollection) in
  GoInt.in_int32 cc.(QueryResult.TotalCommitContributions)
  /\ GoInt.in_int32 cc.(QueryResult.TotalIssueContributions)
  /\ GoInt.in_int32 cc.(QueryResult.TotalPullRequestContributions)
  /\ GoInt.in_int32 cc.(QueryResult.TotalPullRequestReviewContributions).

(** The snapshots a map holds. *)
Definition snapshots (store : gmap string QueryResult.t) : list QueryResult.t :=
  (map_to_list store).*2.

(** The set of the names that occur anywhere in the given snapshots. *)
Definition distinct_names (qs : list QueryResult.t) : gset string :=
  list_to_set (qs ≫= repository_names).

(** The same snapshot with every repository moved to the address [url]. *)
Definition relocate (url : string) (q : QueryResult.t) : QueryResult.t :=
  let cc := q.(QueryResult.User).(QueryResult.ContributionsCollection) in
  let move (repository : QueryResult.ByRepository) :=
    {| QueryResult.Repository :=
         {| QueryResult.Name := name_of repository; QueryResult.URL := url |};
       QueryResult.Contributions := repository.(QueryResult.Contributions) |} in
  {| QueryResult.User :=
       {| QueryResult.Login := q.(QueryResult.User).(QueryResult.Login);
          QueryResult.ContributionsCollection :=
            {| QueryResult.HasAnyContributions := cc.(QueryResult.HasAnyContributions);
               QueryResult.HasActivityInThePast := cc.(QueryResult.HasActivityInThePast);
               QueryResult.RestrictedContributionsCount :=
                 cc.(QueryResult.RestrictedContributionsCount);
               QueryResult.TotalCommitContributions :=
                 cc.(QueryResult.TotalCommitContributions);
               QueryResult.TotalIssueContributions :=
                 cc.(QueryResult.TotalIssueContributions);
               QueryResult.TotalPullRequestContributions :=
                 cc.(QueryResult.TotalPullRequestContributions);
               QueryResult.TotalPullRequestReviewContributions :=
                 cc.(QueryResult.TotalPullRequestReviewContributions);
               QueryResult.TotalRepositoriesWithContributedIssues :=
                 cc.(QueryResult.TotalRepositoriesWithContributedIssues);
               QueryResult.TotalRepositoriesWithContributedCommits :=
                 cc.(QueryResult.TotalRepositoriesWithContributedCommits);
               QueryResult.TotalRepositoriesWithContributedPullRequests :=
                 cc.(QueryResult.TotalRepositoriesWithContributedPullRequests);
               QueryResult.TotalRepositoriesWithContributedPullRequestReviews :=
                 cc.(QueryResult.TotalRepositoriesWithContributedPullRequestReviews);
               QueryResult.CommitContributionsByRepository :=
                 move <$> cc.(QueryResult.CommitContributionsByRepository);
               QueryResult.IssueContributionsByRepository :=
                 move <$> cc.(QueryResult.IssueContributionsByRepository);
               QueryResult.PullRequestContributionsByRepository :=
                 move <$> cc.(QueryResult.PullRequestContributionsByRepository);
               QueryResult.PullRequestReviewContributionsByRepository :=
                 move <$> cc.(QueryResult.PullRequestReviewContributionsByRepository)
            |} |} |}.

End Totals.

(** ** Concrete inputs *)

Module Fixture.

Definition repository (name url : string) (count : Z) : QueryResult.ByRepository :=
  {| QueryResult.Repository := {| QueryResult.Name := name; QueryResult.URL := url |};
     QueryResult.Contributions := {| QueryResult.TotalCount := count |} |}.

(** A snapshot with the given login, activity flag, four counts and four
    lists of repositories (commits, issues, pull requests, reviews). *)
Definition snapshot (login : string) (active_before : bool)
    (commits issues pulls reviews : Z)
    (by_commit by_issue by_pull by_review : list QueryResult.ByRepository)
    : QueryResult.t :=
  {| QueryResult.User :=
       {| QueryResult.Login := login;
          QueryResult.ContributionsCollection :=
            {| QueryResult.HasAnyContributions := true;
               QueryResult.HasActivityInThePast := active_before;
               QueryResult.RestrictedContributionsCount := 0;
               QueryResult.TotalCommitContributions := commits;
               QueryResult.TotalIssueContributions := issues;
               QueryResult.TotalPullRequestContributions := pulls;
               QueryResult.TotalPullRequestReviewContributions := reviews;
               QueryResult.TotalRepositoriesWithContributedIssues :=
                 Z.of_nat (length by_issue);
               QueryResult.TotalRepositoriesWithContributedCommits :=
                 Z.of_nat (length by_commit);
               QueryResult.TotalRepositoriesWithContributedPullRequests :=
                 Z.of_nat (length by_pull);
               QueryResult.TotalRepositoriesWithContributedPullRequestReviews :=
                 Z.of_nat (length by_review);
               QueryResult.CommitContributionsByRepository := by_commit;
               QueryResult.IssueContributionsByRepository := by_issue;
               QueryResult.PullRequestContributionsByRepository := by_pull;
               QueryResult.PullRequestReviewContributionsByRepository :=
                 by_review |} |} |}.

(** A service that knows every login and reports no activity before 2022. *)
Definition since_2022 : githubv4.Client :=
  fun login targetYear _ =>
    (snapshot login (negb (targetYear =? 2022)) 1 0 0 0 [] [] [] [], None).

Definition octocat : Reporter.t :=
  {| Reporter.Client := Some since_2022; Reporter.User := "octocat";
     Reporter.LastYear := 2024; Reporter.FirstYear := 2000 |}.

(** A service that refuses the token [expired] and leaves the struct
    behind the pointer as it was. *)
Definition github (token : string) : githubv4.Client :=
  fun login targetYear queryResult =>
    if String.eqb token "expired"
    then (queryResult, Some "401 Unauthorized")
    else since_2022 login targetYear queryResult.

Definition config : Main.Configuration :=
  {| Main.credentialsAreEncrypted := false;
     Main.credentialsFilePath := "gh-tokens.json";
     Main.firstReportingYear := 2000;
     Main.lastReportingYear := 2024 |}.

Definition alice_then_bob : Credentials :=
  [ {| Username := "alice"; Token := "expired" |};
    {| Username := "bob"; Token := "valid" |} ].

(** The two snapshots of the end-to-end scenario. *)
Definition two_users : gmap string QueryResult.t :=
  <["A-2024" := snapshot "A" true 10 2 1 0
                  [repository "x" "https://github.com/A/x" 6;
                   repository "y" "https://github.com/A/y" 4] [] [] []]>
  (<["B-2024" := snapshot "B" true 5 0 3 2
                  [repository "y" "https://github.com/B/y" 5] []
                  [repository "z" "https://github.com/B/z" 3] []]> ∅).

(** Two snapshots that both list a repository named [repoA], one under
    commits and one under issues, at different addresses. *)
Definition repoA_twice : gmap string QueryResult.t :=
  <["A-2024" := snapshot "A" true 3 0 0 0
                  [repository "repoA" "https://github.com/A/repoA" 3] [] [] []]>
  (<["B-2023" := snapshot "B" true 0 1 0 0
                  [] [repository "repoA" "https://github.com/B/repoA" 1] [] []]> ∅).

End Fixture.

(** ** Observations used by the further properties *)

Module Observed.

(** The key under which [Collect] stores the answer for a year:
    [r.User + "-" + strconv.Itoa(targetYear)]. *)
Definition userYear (user : string) (targetYear : Z) : string :=
  user +:+ "-" +:+ strconv.Itoa targetYear.

(** Whether a character occurs in a string. *)
Fixpoint occurs (c : Ascii.ascii) (s : string) : bool :=
  match s with
  | EmptyString => false
  | String c' s => Ascii.eqb c c' || occurs c s
  end.

Definition dash : Ascii.ascii := Ascii.ascii_of_nat 45.

(** The login and the year of every call of the client in a trace. *)
Fixpoint asked (tr : Trace) : list (string * Z) :=
  match tr with
  | [] => []
  | Queried login targetYear _ _ :: tr => (login, targetYear) :: asked tr
  | Logged _ :: tr => asked tr
  end.

(** No call of the client recorded in the trace returned an error. *)
Definition no_query_failed (tr : Trace) : Prop :=
  forall year result err,
    (year, result, err) ∈ Reporter.queries tr -> err = None.

(** The client answers every year of the reporter's range without an
    error and with activity in the past, whatever the struct holds. *)
Definition always_active (r : Reporter.t) (client : githubv4.Client) : Prop :=
  forall (year : Z) (q : QueryResult.t),
    Reporter.FirstYear r <= year <= Reporter.LastYear r ->
    exists result,
      client (Reporter.User r) year q = (result, None)
      /\ Reporter.hasActivityInThePast result = true.

(** Two snapshots that [Aggregate] cannot tell apart: the same commit
    count, the same sum of the three other counts, the same names. *)
Definition same_counted (q1 q2 : QueryResult.t) : Prop :=
  Totals.commits q1 = Totals.commits q2
  /\ Totals.others q1 = Totals.others q2
  /\ Totals.repository_names q1 = Totals.repository_names q2.


End Observed.

(** ** More concrete inputs *)

Module Sample.

(** A service that reports activity in the past for every year. *)
Definition always_busy : githubv4.Client :=
  fun login targetYear _ =>
    (Fixture.snapshot login true 2 1 0 0
       [Fixture.repository "dotfiles" "https://github.com/hubot/dotfiles" 2]
       [] [] [],
     None).

Definition hubot : Reporter.t :=
  {| Reporter.Client := Some always_busy; Reporter.User := "hubot";
     Reporter.LastYear := 2024; Reporter.FirstYear := 2021 |}.

(** A list of credentials with a blank user name in the second place. *)
Definition blank_second : Credentials :=
  [ {| Username := "bob"; Token := "valid" |};
    {| Username := EmptyString; Token := "valid" |};
    {| Username := "carol"; Token := "valid" |} ].

Definition bob_and_carol : Credentials :=
  [ {| Username := "bob"; Token := "valid" |};
    {| Username := "carol"; Token := "valid" |} ].

(** The snapshot of user B in the end-to-end scenario. *)
Definition b_2024 : QueryResult.t :=
  Fixture.snapshot "B" true 5 0 3 2
    [Fixture.repository "y" "https://github.com/B/y" 5] []
    [Fixture.repository "z" "https://github.com/B/z" 3] [].

End Sample.

(** ** Properties *)

(** *** Machine integers *)

Section GoIntFacts.

Lemma wrap_in_range (z : Z) : GoInt.in_range z -> GoInt.wrap z = z.
Proof.
  unfold GoInt.in_range, GoInt.wrap, GoInt.minInt, GoInt.maxInt, GoInt.intSize.
  intros Hz. rewrite Z.mod_small; lia.
Qed.

Lemma wrap_range (z : Z) : GoInt.in_range (GoInt.wrap z).
Proof.
  unfold GoInt.in_range, GoInt.wrap, GoInt.minInt, GoInt.maxInt, GoInt.intSize.
  pose proof (Z.mod_pos_bound (z + 2 ^ (64 - 1)) (2 ^ 64) ltac:(lia)). lia.
Qed.

Lemma wrap_add_l (a b : Z) : GoInt.wrap (GoInt.wrap a + b) = GoInt.wrap (a + b).
Proof.
  unfold GoInt.wrap. f_equal.
  replace ((a + 2 ^ (GoInt.intSize - 1)) mod 2 ^ GoInt.intSize
           - 2 ^ (GoInt.intSize - 1) + b + 2 ^ (GoInt.intSize - 1))
    with ((a + 2 ^ (GoInt.intSize - 1)) mod 2 ^ GoInt.intSize + b) by lia.
  rewrite Zplus_mod_idemp_l. f_equal. lia.
Qed.

Lemma wrap_add_r (a b : Z) : GoInt.wrap (a + GoInt.wrap b) = GoInt.wrap (a + b).
Proof. rewrite (Z.add_comm a), wrap_add_l. f_equal. lia. Qed.

(** Decrementing a loop variable that is above the least [int]. *)
Lemma sub_1_exact (y : Z) :
  GoInt.minInt < y -> y <= GoInt.maxInt -> GoInt.sub y 1 = y - 1.
Proof.
  intros Hlo Hhi. unfold GoInt.sub. apply wrap_in_range.
  unfold GoInt.in_range. lia.
Qed.

End GoIntFacts.

(** *** Construction and year normalisation *)

Section Normalisation.

Variables (r : Reporter.t) (client : option githubv4.Client).
Variables (user : string) (thisYear : Z).

Ltac year_cases :=
  repeat match goal with
         | |- context [?a >? ?b] => rewrite (Z.gtb_ltb a b)
         | |- context [?a <? ?b] => destruct (Z.ltb_spec a b); simpl in *
         | |- context [?a =? ?b] => destruct (Z.eqb_spec a b); simpl in *
         end.

Lemma NewReporter_named (firstYear lastYear : Z) :
  user <> EmptyString ->
  exists rep tr,
    Reporter.NewReporter r client user firstYear lastYear thisYear
    = ((rep, None), tr)
    /\ Reporter.User rep = user /\ Reporter.Client rep = client.
Proof.
  intros Huser. unfold Reporter.NewReporter.
  destruct (String.eqb_spec user EmptyString) as [|_]; [contradiction|].
  year_cases; eauto.
Qed.

(** C3. For a user that is not blank and any requested pair of years, the
    reporter [NewReporter] returns (with a [nil] error) has
    [2000 <= FirstYear <= LastYear <= thisYear], where [thisYear] is the
    UTC year of the clock, taken not to be before the floor year 2000;
    a first year under 2000 or after [thisYear] becomes 2000, any other
    is kept; a last year after [thisYear] becomes [thisYear]; a last year
    that is zero or before the effective first year becomes [thisYear]. *)
Theorem NewReporter_effective_range (firstYear lastYear : Z) :
  user <> EmptyString ->
  DefaultFirstContributionYear <= thisYear ->
  let result := Reporter.NewReporter r client user firstYear lastYear thisYear in
  let rep := result.1.1 in
  result.1.2 = None
  /\ 2000 <= Reporter.FirstYear rep
  /\ Reporter.FirstYear rep <= Reporter.LastYear rep
  /\ Reporter.LastYear rep <= thisYear
  /\ (firstYear < 2000 \/ thisYear < firstYear -> Reporter.FirstYear rep = 2000)
  /\ (2000 <= firstYear <= thisYear -> Reporter.FirstYear rep = firstYear)
  /\ (thisYear < lastYear -> Reporter.LastYear rep = thisYear)
  /\ (lastYear = 0 \/ lastYear < Reporter.FirstYear rep ->
      Reporter.LastYear rep = thisYear).
Proof.
  intros Huser Hclock. unfold Reporter.NewReporter, DefaultFirstContributionYear in *.
  destruct (String.eqb_spec user EmptyString) as [|_]; [contradiction|].
  year_cases; repeat split; intros; lia.
Qed.

(** C7. With a blank user [NewReporter] returns the zero reporter and the
    error, whatever the receiver, the client and the years are, and logs
    nothing; it has no access to the map of results. *)
Theorem NewReporter_blank_user (firstYear lastYear : Z) :
  Reporter.NewReporter r client EmptyString firstYear lastYear thisYear
  = ((Reporter.zero, Some (fmt.Errorf_blank_user EmptyString)), []).
Proof. reflexivity. Qed.

(** C8. A pair of years that is already normalised,
    [2000 <= firstYear <= lastYear <= thisYear], is returned as it is (and
    nothing is logged). *)
Theorem NewReporter_normalised_fixed (firstYear lastYear : Z) :
  user <> EmptyString ->
  2000 <= firstYear -> firstYear <= lastYear -> lastYear <= thisYear ->
  Reporter.NewReporter r client user firstYear lastYear thisYear
  = (({| Reporter.Client := client; Reporter.User := user;
         Reporter.LastYear := lastYear; Reporter.FirstYear := firstYear |},
      None), []).
Proof.
  intros Huser H1 H2 H3. unfold Reporter.NewReporter, DefaultFirstContributionYear.
  destruct (String.eqb_spec user EmptyString) as [|_]; [contradiction|].
  year_cases; try lia. reflexivity.
Qed.

End Normalisation.

Lemma NewReporter_effective_range_witness :
  "octocat" <> EmptyString
  /\ DefaultFirstContributionYear <= 2024
  /\ let rep := (Reporter.NewReporter Reporter.zero None "octocat"
                                      1990 2030 2024).1.1 in
     2000 <= Reporter.FirstYear rep
     /\ Reporter.FirstYear rep <= Reporter.LastYear rep
     /\ Reporter.LastYear rep <= 2024.
Proof.
  assert (H1 : "octocat" <> EmptyString) by discriminate.
  assert (H2 : DefaultFirstContributionYear <= 2024) by (by vm_compute).
  split; [exact H1|]. split; [exact H2|].
  destruct (NewReporter_effective_range Reporter.zero None "octocat" 2024
              1990 2030 H1 H2) as (_ & Hfloor & Hrange & Hnow & _).
  split; [exact Hfloor|]. split; [exact Hrange|exact Hnow].
Defined.

Lemma NewReporter_normalised_fixed_witness :
  "octocat" <> EmptyString /\ 2000 <= 2010 /\ 2010 <= 2020 /\ 2020 <= 2024
  /\ Reporter.NewReporter Reporter.zero None "octocat" 2010 2020 2024
     = (({| Reporter.Client := None; Reporter.User := "octocat";
            Reporter.LastYear := 2020; Reporter.FirstYear := 2010 |},
         None), []).
Proof.
  assert (H1 : "octocat" <> EmptyString) by discriminate.
  assert (H2 : 2000 <= 2010) by lia.
  assert (H3 : 2010 <= 2020) by lia.
  assert (H4 : 2020 <= 2024) by lia.
  split; [exact H1|]. split; [exact H2|]. split; [exact H3|].
  split; [exact H4|].
  exact (NewReporter_normalised_fixed Reporter.zero None "octocat" 2024
           2010 2020 H1 H2 H3 H4).
Defined.

(** *** The year loop of [Collect] *)

Section Collection.

Import Reporter.

Lemma queries_app (tr1 tr2 : Trace) :
  queries (tr1 ++ tr2) = queries tr1 ++ queries tr2.
Proof.
  induction tr1 as [|[line|login y res err] tr1 IH]; simpl; [done|done|].
  by rewrite IH.
Qed.

(** One round of the loop, as an equation. *)
Lemma Collect_loop_S (fuel : nat) (r : t) (targetYear : Z)
    (queryResult : QueryResult.t) (queryResults : gmap string QueryResult.t) :
  Collect_loop (S fuel) r targetYear queryResult queryResults =
    if targetYear >=? FirstYear r then
      match Client r with
      | None => Some (Panicked, queryResults, [])
      | Some client =>
        let '(queryResult, err) := client (User r) targetYear queryResult in
        let asked := Queried (User r) targetYear queryResult err in
        match err with
        | Some err => Some (Exited 1, queryResults, [asked; Logged err])
        | None =>
          let '(queryResults, stored) :=
            store_round r targetYear queryResult queryResults in
          if negb (hasActivityInThePast queryResult) then
            Some (Returned None, queryResults, asked :: stored)
          else
            match Collect_loop fuel r (GoInt.sub targetYear 1)
                               queryResult queryResults with
            | Some (out, queryResults, rest) =>
              Some (out, queryResults, asked :: stored ++ rest)
            | None => None
            end
        end
      end
    else Some (Returned None, queryResults, []).
Proof. reflexivity. Qed.

Lemma store_round_queries r y q store :
  queries (store_round r y q store).2 = [].
Proof.
  unfold store_round.
  by destruct (String.eqb (QueryResult.Login (QueryResult.User q)) EmptyString).
Qed.

Lemma shifted_years (y : Z) (n : nat) :
  y :: ((fun i : nat => y - 1 - Z.of_nat i) <$> seq 0 n)
  = (fun i : nat => y - Z.of_nat i) <$> seq 0 (S n).
Proof.
  simpl. f_equal; [lia|].
  rewrite <- fmap_S_seq, <- list_fmap_compose.
  apply list_fmap_ext. intros _ i _. simpl. lia.
Qed.

(** The shape of the run of the loop entered at [y]. *)
Lemma Collect_loop_runs (r : t) (fuel : nat) :
  GoInt.minInt < FirstYear r ->
  forall (y : Z) (q : QueryResult.t) (store : gmap string QueryResult.t),
  y <= GoInt.maxInt ->
  (Z.to_nat (y - FirstYear r + 1) < fuel)%nat ->
  exists out store' tr,
    Collect_loop fuel r y q store = Some (out, store', tr)
    /\ (out = Returned None \/ out = Exited 1 \/ out = Panicked)
    /\ queried_years tr
       = (fun i : nat => y - Z.of_nat i) <$> seq 0 (length (queries tr))
    /\ Z.of_nat (length (queries tr)) <= Z.max 0 (y - FirstYear r + 1)
    /\ (forall i yr res err,
          queries tr !! i = Some (yr, res, err) ->
          hasActivityInThePast res = false \/ err <> None ->
          length (queries tr) = S i)
    /\ (forall yr res,
          last (queries tr) = Some (yr, res, None) ->
          hasActivityInThePast res = true -> yr = FirstYear r)
    /\ (Client r <> None -> FirstYear r <= y -> queries tr <> []).
Proof.
  intros Hfirst. unfold queried_years.
  induction fuel as [|fuel IH]; intros y q store Hy Hfuel; [lia|].
  rewrite Collect_loop_S.
  destruct (Z.geb_spec y (FirstYear r)) as [Hge|Hlt].
  2:{ eexists _, _, _. split; [reflexivity|]. simpl.
      repeat split; try done; try lia; eauto. }
  destruct (Client r) as [client|] eqn:Hclient.
  2:{ eexists _, _, _. split; [reflexivity|]. simpl.
      repeat split; try done; try lia; eauto. }
  destruct (client (User r) y q) as [q' [e|]] eqn:Hq.
  { eexists _, _, _. split; [reflexivity|]. simpl.
    split; [eauto|]. split; [f_equal; lia|]. split; [lia|].
    split; [by intros [|[|i]] ?|]. split; [by intros|done]. }
  destruct (store_round r y q' store) as [store1 stored] eqn:Hstore.
  pose proof (store_round_queries r y q' store) as Hstored.
  rewrite Hstore in Hstored. simpl in Hstored.
  destruct (hasActivityInThePast q') eqn:Hflag; simpl.
  2:{ eexists _, _, _. split; [reflexivity|]. simpl. rewrite Hstored. simpl.
      split; [eauto|]. split; [f_equal; lia|]. split; [lia|].
      split; [by intros [|[|i]] ?|]. split; [|done].
      intros yr res [= <- <-]. congruence. }
  rewrite sub_1_exact by lia.
  destruct (IH (y - 1) q' store1) as (out & store' & rest & Hrun & Hout & Hyears
                                       & Hlen & Hstop & Hlast & Hany);
    [lia|lia|].
  rewrite Hrun. eexists _, _, _. split; [reflexivity|].
  cbn [queries]. rewrite queries_app, Hstored, app_nil_l.
  split; [done|]. split.
  { rewrite !fmap_cons, Hyears. cbn [fst length]. apply shifted_years. }
  simpl. split; [lia|]. split.
  { intros [|i] yr res err; simpl.
    - intros [= <- <- <-] [?|?]; congruence.
    - intros Hi Hbad. f_equal. eauto. }
  split; [|done].
  intros yr res. destruct (queries rest) as [|x rest'] eqn:Hrest.
  - simpl. intros [= <- <-] _.
    destruct (decide (FirstYear r <= y - 1)) as [Hmore|]; [|lia].
    exfalso. apply Hany; [congruence|done|done].
  - intros Hl. apply Hlast. exact Hl.
Qed.

(** What the loop does to the map, for any amount of fuel that lets it
    end: an entry of the map afterwards was there before or is an answer
    with a login, under the key of its year; entries stay; every answer
    with a login has its key in the map. *)
Lemma Collect_loop_store (r : t) (fuel : nat) :
  forall (y : Z) (q : QueryResult.t) (store : gmap string QueryResult.t)
         out store' tr,
  Collect_loop fuel r y q store = Some (out, store', tr) ->
  (forall key snapshot,
      store' !! key = Some snapshot ->
      store !! key = Some snapshot
      \/ (QueryResult.Login (QueryResult.User snapshot) <> EmptyString
          /\ exists year, (year, snapshot, None) ∈ queries tr
                          /\ key = User r +:+ "-" +:+ strconv.Itoa year))
  /\ (forall key, is_Some (store !! key) -> is_Some (store' !! key))
  /\ (forall year snapshot,
        (year, snapshot, None) ∈ queries tr ->
        QueryResult.Login (QueryResult.User snapshot) <> EmptyString ->
        is_Some (store' !! (User r +:+ "-" +:+ strconv.Itoa year))).
Proof.
  induction fuel as [|fuel IH]; intros y q store out store' tr Hrun; [done|].
  rewrite Collect_loop_S in Hrun.
  destruct (y >=? FirstYear r).
  2:{ injection Hrun as <- <- <-. simpl. split; [auto|]. split; [auto|].
      intros ? ? Hin. by apply elem_of_nil in Hin. }
  destruct (Client r) as [client|].
  2:{ injection Hrun as <- <- <-. simpl. split; [auto|]. split; [auto|].
      intros ? ? Hin. by apply elem_of_nil in Hin. }
  destruct (client (User r) y q) as [q' [e|]].
  { injection Hrun as <- <- <-. simpl. split; [auto|]. split; [auto|].
    intros ? ? Hin. apply list_elem_of_singleton in Hin. congruence. }
  assert (Hround :
    forall key snapshot,
      (store_round r y q' store).1 !! key = Some snapshot ->
      store !! key = Some snapshot
      \/ (QueryResult.Login (QueryResult.User snapshot) <> EmptyString
          /\ snapshot = q' /\ key = User r +:+ "-" +:+ strconv.Itoa y)).
  { intros key snapshot. unfold store_round.
    destruct (String.eqb_spec (QueryResult.Login (QueryResult.User q'))
                              EmptyString) as [|Hlogin]; simpl; [auto|].
    rewrite lookup_insert. case_decide; [|auto].
    intros [= <-]. auto. }
  assert (Hkeep : forall key,
    is_Some (store !! key) -> is_Some ((store_round r y q' store).1 !! key)).
  { intros key. unfold store_round.
    destruct (String.eqb_spec (QueryResult.Login (QueryResult.User q'))
                              EmptyString); simpl; [done|].
    rewrite lookup_insert. case_decide; eauto. }
  assert (Hnew :
    QueryResult.Login (QueryResult.User q') <> EmptyString ->
    is_Some ((store_round r y q' store).1
               !! (User r +:+ "-" +:+ strconv.Itoa y))).
  { unfold store_round.
    destruct (String.eqb_spec (QueryResult.Login (QueryResult.User q'))
                              EmptyString); simpl; [done|].
    rewrite lookup_insert_eq. eauto. }
  pose proof (store_round_queries r y q' store) as Hstored.
  destruct (store_round r y q' store) as [store1 stored]. simpl in *.
  destruct (hasActivityInThePast q'); simpl in Hrun.
  - destruct (Collect_loop fuel r (GoInt.sub y 1) q' store1)
      as [[[out1 store2] rest]|] eqn:Hrec; [|done].
    injection Hrun as <- <- <-.
    apply IH in Hrec as (Hfrom & Hstay & Hthere).
    cbn [queries]. rewrite queries_app, Hstored, app_nil_l.
    split; [|split].
    + intros key snapshot Hkey.
      destruct (Hfrom _ _ Hkey) as [Hold|(Hlogin & year & Hin & ->)].
      * destruct (Hround _ _ Hold) as [|(Hlogin & -> & ->)]; [auto|].
        right. split; [done|]. exists y. split; [left|done].
      * right. split; [done|]. exists year. split; [by right|done].
    + auto.
    + intros year snapshot Hin Hlogin.
      apply elem_of_cons in Hin as [[= -> ->]|Hin]; [auto|eauto].
  - injection Hrun as <- <- <-.
    cbn [queries]. rewrite Hstored.
    split; [|split].
    + intros key snapshot Hkey.
      destruct (Hround _ _ Hkey) as [|(Hlogin & -> & ->)]; [auto|].
      right. split; [done|]. exists y. split; [left|done].
    + auto.
    + intros year snapshot Hin Hlogin.
      apply list_elem_of_singleton in Hin as [= -> ->]. auto.
Qed.

(** Whatever the fuel, a run that ends never hands an error to the
    caller: an error of the client ends the process with status 1. *)
Lemma Collect_loop_outcome (r : t) (fuel : nat) :
  forall (y : Z) (q : QueryResult.t) (store : gmap string QueryResult.t)
         out store' tr,
  Collect_loop fuel r y q store = Some (out, store', tr) ->
  (forall yr res e, (yr, res, Some e) ∈ queries tr -> out = Exited 1)
  /\ (forall err, out = Returned err -> err = None).
Proof.
  induction fuel as [|fuel IH]; intros y q store out store' tr Hrun; [done|].
  rewrite Collect_loop_S in Hrun.
  destruct (y >=? FirstYear r).
  2:{ injection Hrun as <- <- <-. simpl. split; [|congruence].
      intros ? ? ? Hin. by apply elem_of_nil in Hin. }
  destruct (Client r) as [client|].
  2:{ injection Hrun as <- <- <-. simpl. split; [|congruence].
      intros ? ? ? Hin. by apply elem_of_nil in Hin. }
  destruct (client (User r) y q) as [q' [e|]].
  { injection Hrun as <- <- <-. by split. }
  pose proof (store_round_queries r y q' store) as Hstored.
  destruct (store_round r y q' store) as [store1 stored]. simpl in *.
  destruct (hasActivityInThePast q'); simpl in Hrun.
  - destruct (Collect_loop fuel r (GoInt.sub y 1) q' store1)
      as [[[out1 store2] rest]|] eqn:Hrec; [|done].
    injection Hrun as <- <- <-. apply IH in Hrec as (Herr & Hret).
    cbn [queries]. rewrite queries_app, Hstored, app_nil_l.
    split; [|done].
    intros yr res e Hin. apply elem_of_cons in Hin as [[=]|Hin]. eauto.
  - injection Hrun as <- <- <-. cbn [queries]. rewrite Hstored.
    split; [|congruence].
    intros yr res e Hin. by apply list_elem_of_singleton in Hin.
Qed.

(** An error at the first year asked for: [Collect] does not return. *)
Lemma Collect_first_error_exits (r : t) (client : githubv4.Client)
    (fuel : nat) (store : gmap string QueryResult.t)
    (q : QueryResult.t) (e : error) :
  Client r = Some client -> FirstYear r <= LastYear r ->
  client (User r) (LastYear r) QueryResult.zero = (q, Some e) ->
  Collect (S fuel) r store
  = Some (Exited 1, store,
          [Logged "fetching repository statistics...";
           Queried (User r) (LastYear r) q (Some e); Logged e]).
Proof.
  intros Hclient Hrange Hq. unfold Collect.
  rewrite Collect_loop_S, Hclient, Hq.
  by destruct (Z.geb_spec (LastYear r) (FirstYear r)); [|lia].
Qed.

(** A round that is answered with activity in the past goes on with the
    year before. *)
Lemma Collect_loop_goes_on (r : t) (client : githubv4.Client) (fuel : nat)
    (y : Z) (q res : QueryResult.t) (store : gmap string QueryResult.t) :
  Client r = Some client -> FirstYear r <= y ->
  client (User r) y q = (res, None) -> hasActivityInThePast res = true ->
  forall out store' rest,
  Collect_loop fuel r (GoInt.sub y 1) res (store_round r y res store).1
  = Some (out, store', rest) ->
  exists tr, Collect_loop (S fuel) r y q store = Some (out, store', tr)
             /\ queries tr = (y, res, None) :: queries rest.
Proof.
  intros Hclient Hy Hq Hflag out store' rest Hrest.
  rewrite Collect_loop_S, Hclient, Hq.
  destruct (Z.geb_spec y (FirstYear r)); [|lia].
  pose proof (store_round_queries r y res store) as Hstored.
  destruct (store_round r y res store) as [store1 stored]. simpl in *.
  rewrite Hflag, Hrest. simpl. eexists. split; [reflexivity|].
  cbn [queries]. by rewrite queries_app, Hstored.
Qed.

(** A round that is answered with no activity in the past is the last. *)
Lemma Collect_loop_breaks (r : t) (client : githubv4.Client) (fuel : nat)
    (y : Z) (q res : QueryResult.t) (store : gmap string QueryResult.t) :
  Client r = Some client -> FirstYear r <= y ->
  client (User r) y q = (res, None) -> hasActivityInThePast res = false ->
  exists tr, Collect_loop (S fuel) r y q store
             = Some (Returned None, (store_round r y res store).1, tr)
             /\ queries tr = [(y, res, None)].
Proof.
  intros Hclient Hy Hq Hflag.
  rewrite Collect_loop_S, Hclient, Hq.
  destruct (Z.geb_spec y (FirstYear r)); [|lia].
  pose proof (store_round_queries r y res store) as Hstored.
  destruct (store_round r y res store) as [store1 stored]. simpl in *.
  rewrite Hflag. simpl. eexists. split; [reflexivity|].
  cbn [queries]. by rewrite Hstored.
Qed.

(** The scenario of the specification: over [2000, 2024], answers with
    activity in the past for 2024 and 2023 and without for 2022. *)
Lemma Collect_loop_2022 (r : t) (client : githubv4.Client) (fuel : nat)
    (q : QueryResult.t) (store : gmap string QueryResult.t) :
  Client r = Some client -> FirstYear r = 2000 ->
  (forall q, exists res, client (User r) 2024 q = (res, None)
                         /\ hasActivityInThePast res = true) ->
  (forall q, exists res, client (User r) 2023 q = (res, None)
                         /\ hasActivityInThePast res = true) ->
  (forall q, exists res, client (User r) 2022 q = (res, None)
                         /\ hasActivityInThePast res = false) ->
  exists store' tr,
    Collect_loop (S (S (S fuel))) r 2024 q store = Some (Returned None, store', tr)
    /\ queried_years tr = [2024; 2023; 2022].
Proof.
  intros Hclient Hfirst H24 H23 H22.
  destruct (H24 q) as (res24 & Hq24 & Hflag24).
  destruct (H23 res24) as (res23 & Hq23 & Hflag23).
  destruct (H22 res23) as (res22 & Hq22 & Hflag22).
  set (store24 := (store_round r 2024 res24 store).1).
  set (store23 := (store_round r 2023 res23 store24).1).
  destruct (Collect_loop_breaks r client fuel 2022 res23 res22 store23)
    as (tr22 & Hrun22 & Hqs22); [done|lia|done|done|].
  destruct (Collect_loop_goes_on r client (S fuel) 2023 res24 res23 store24
              Hclient ltac:(lia) Hq23 Hflag23 _ _ _ Hrun22)
    as (tr23 & Hrun23 & Hqs23).
  destruct (Collect_loop_goes_on r client (S (S fuel)) 2024 q res24 store
              Hclient ltac:(lia) Hq24 Hflag24 _ _ _ Hrun23)
    as (tr24 & Hrun24 & Hqs24).
  eexists _, tr24. split; [exact Hrun24|].
  unfold queried_years. by rewrite Hqs24, Hqs23, Hqs22.
Qed.

(** C2. A reporter whose years are [int]s with [FirstYear] above the least
    one (as every reporter of [NewReporter] is), given fuel for its range:
    [Collect] ends; the years it asks about are [LastYear], [LastYear - 1],
    ... one after the other; each lies in [FirstYear, LastYear]; an answer
    without activity in the past (or an error) is the last one asked for;
    an answer with activity in the past is the last only at [FirstYear];
    with a client, a range that is not empty is asked about at least once.
    In particular over [2000, 2024], when the answers for 2024 and 2023
    have activity in the past and the one for 2022 has not, the years asked
    about are exactly 2024, 2023, 2022. *)
Theorem Collect_queries_descending (r : t)
    (store : gmap string QueryResult.t) (fuel : nat) :
  GoInt.minInt < FirstYear r -> LastYear r <= GoInt.maxInt ->
  (Z.to_nat (LastYear r - FirstYear r + 1) < fuel)%nat ->
  exists out store' tr,
    Collect fuel r store = Some (out, store', tr)
    /\ queried_years tr
       = (fun i : nat => LastYear r - Z.of_nat i)
           <$> seq 0 (length (queried_years tr))
    /\ (forall y, y ∈ queried_years tr -> FirstYear r <= y <= LastYear r)
    /\ (forall i yr res err,
          queries tr !! i = Some (yr, res, err) ->
          hasActivityInThePast res = false \/ err <> None ->
          length (queries tr) = S i)
    /\ (forall yr res,
          last (queries tr) = Some (yr, res, None) ->
          hasActivityInThePast res = true -> yr = FirstYear r)
    /\ (Client r <> None -> FirstYear r <= LastYear r -> queries tr <> [])
    /\ (forall client,
          Client r = Some client -> LastYear r = 2024 -> FirstYear r = 2000 ->
          (forall q, exists res, client (User r) 2024 q = (res, None)
                                 /\ hasActivityInThePast res = true) ->
          (forall q, exists res, client (User r) 2023 q = (res, None)
                                 /\ hasActivityInThePast res = true) ->
          (forall q, exists res, client (User r) 2022 q = (res, None)
                                 /\ hasActivityInThePast res = false) ->
          queried_years tr = [2024; 2023; 2022]).
Proof.
  intros Hfirst Hlast Hfuel.
  destruct (Collect_loop_runs r fuel Hfirst (LastYear r) QueryResult.zero store
              Hlast Hfuel)
    as (out & store' & tr & Hrun & _ & Hyears & Hlen & Hstop & Hend & Hany).
  exists out, store', (Logged "fetching repository statistics..." :: tr).
  unfold Collect. rewrite Hrun. split; [done|].
  unfold queried_years in *. cbn [queries]. rewrite !length_fmap.
  split; [done|]. split.
  { intros y. rewrite Hyears. intros (i & -> & Hi)%list_elem_of_fmap.
    apply elem_of_seq in Hi. lia. }
  split; [done|]. split; [done|]. split; [done|].
  intros client Hclient H2024 H2000 H24 H23 H22.
  destruct fuel as [|[|[|fuel]]]; [rewrite H2024, H2000 in Hfuel; lia..|].
  destruct (Collect_loop_2022 r client fuel QueryResult.zero store
              Hclient H2000 H24 H23 H22) as (store2 & tr2 & Hrun2 & Hyears2).
  rewrite H2024, Hrun2 in Hrun. by injection Hrun as _ _ <-.
Qed.

Lemma Collect_queries_descending_witness :
  GoInt.minInt < FirstYear Fixture.octocat
  /\ LastYear Fixture.octocat <= GoInt.maxInt
  /\ (Z.to_nat (LastYear Fixture.octocat - FirstYear Fixture.octocat + 1) < 26)%nat
  /\ exists out store' tr,
       Collect 26 Fixture.octocat ∅ = Some (out, store', tr)
       /\ queried_years tr = [2024; 2023; 2022].
Proof.
  assert (H1 : GoInt.minInt < FirstYear Fixture.octocat) by (by vm_compute).
  assert (H2 : LastYear Fixture.octocat <= GoInt.maxInt) by (by vm_compute).
  assert (H3 : (Z.to_nat (LastYear Fixture.octocat
                          - FirstYear Fixture.octocat + 1) < 26)%nat)
    by (vm_compute; lia).
  split; [exact H1|]. split; [exact H2|]. split; [exact H3|].
  destruct (Collect_queries_descending Fixture.octocat ∅ 26 H1 H2 H3)
    as (out & store' & tr & Hrun & _ & _ & _ & _ & _ & Hscenario).
  exists out, store', tr. split; [exact Hrun|].
  apply (Hscenario Fixture.since_2022); try reflexivity;
    intros q; eexists; split; reflexivity.
Defined.

(** C6. A reporter whose years are [int]s with [FirstYear] above the least
    one, given fuel for its range: [Collect] ends, and every entry of the
    map afterwards either was in the map before, unchanged, or is an
    answer of this run that came without an error and with a login that
    is not empty, stored under the key [<user>-<year>] of the year it was
    asked for; every such answer has its key in the map; so a map whose
    entries all have a login keeps that property. *)
Theorem Collect_stores_resolved_logins (r : t)
    (store : gmap string QueryResult.t) (fuel : nat) :
  GoInt.minInt < FirstYear r -> LastYear r <= GoInt.maxInt ->
  (Z.to_nat (LastYear r - FirstYear r + 1) < fuel)%nat ->
  exists out store' tr,
    Collect fuel r store = Some (out, store', tr)
    /\ (forall key snapshot,
          store' !! key = Some snapshot ->
          store !! key = Some snapshot
          \/ (QueryResult.Login (QueryResult.User snapshot) <> EmptyString
              /\ exists year,
                   (year, snapshot, None) ∈ queries tr
                   /\ key = User r +:+ "-" +:+ strconv.Itoa year))
    /\ (forall year snapshot,
          (year, snapshot, None) ∈ queries tr ->
          QueryResult.Login (QueryResult.User snapshot) <> EmptyString ->
          is_Some (store' !! (User r +:+ "-" +:+ strconv.Itoa year)))
    /\ (map_Forall (fun _ snapshot =>
                      QueryResult.Login (QueryResult.User snapshot)
                      <> EmptyString) store ->
        map_Forall (fun _ snapshot =>
                      QueryResult.Login (QueryResult.User snapshot)
                      <> EmptyString) store').
Proof.
  intros Hfirst Hlast Hfuel.
  destruct (Collect_loop_runs r fuel Hfirst (LastYear r) QueryResult.zero store
              Hlast Hfuel) as (out & store' & tr & Hrun & _).
  exists out, store', (Logged "fetching repository statistics..." :: tr).
  unfold Collect. rewrite Hrun. split; [done|]. cbn [queries].
  apply Collect_loop_store in Hrun as (Hfrom & _ & Hthere).
  split; [done|]. split; [done|].
  intros Hall key snapshot Hkey.
  destruct (Hfrom _ _ Hkey) as [Hold|[Hlogin _]]; [|done].
  exact (Hall _ _ Hold).
Qed.

Lemma Collect_stores_resolved_logins_witness :
  GoInt.minInt < FirstYear Fixture.octocat
  /\ LastYear Fixture.octocat <= GoInt.maxInt
  /\ (Z.to_nat (LastYear Fixture.octocat - FirstYear Fixture.octocat + 1) < 26)%nat
  /\ exists out store' tr,
       Collect 26 Fixture.octocat ∅ = Some (out, store', tr)
       /\ map_Forall (fun _ snapshot =>
                        QueryResult.Login (QueryResult.User snapshot)
                        <> EmptyString) store'.
Proof.
  assert (H1 : GoInt.minInt < FirstYear Fixture.octocat) by (by vm_compute).
  assert (H2 : LastYear Fixture.octocat <= GoInt.maxInt) by (by vm_compute).
  assert (H3 : (Z.to_nat (LastYear Fixture.octocat
                          - FirstYear Fixture.octocat + 1) < 26)%nat)
    by (vm_compute; lia).
  split; [exact H1|]. split; [exact H2|]. split; [exact H3|].
  destruct (Collect_stores_resolved_logins Fixture.octocat ∅ 26 H1 H2 H3)
    as (out & store' & tr & Hrun & _ & _ & Hall).
  exists out, store', tr. split; [exact Hrun|].
  apply Hall, map_Forall_empty.
Defined.

End Collection.

(** *** A failing query under the credential loop *)

(** C1, on the code as it is. The first credential's token is refused at
    the first year asked for: [log.Fatal] in [Collect] prints the error and
    ends the process with status 1. Nothing is returned to [main], which
    therefore neither logs the error nor goes on: the second credential is
    never asked about and no report is printed. *)
Theorem main_ends_at_first_query_error :
  Main.main 26 Fixture.github Fixture.config 2024 Fixture.alice_then_bob
            map_to_list 1730498450
  = Some (Exited 1, ∅,
          [Logged "fetching repository statistics...";
           Queried "alice" 2024 QueryResult.zero (Some "401 Unauthorized");
           Logged "401 Unauthorized"]).
Proof. vm_compute. reflexivity. Qed.

(** *** The reduction of [Aggregate] *)

Section Aggregation.

Import Reporter Totals.

Lemma sum_over_perm {A : Type} (f : A -> Z) (l1 l2 : list A) :
  l1 ≡ₚ l2 -> sum_over f l1 = sum_over f l2.
Proof. induction 1; simpl; lia. Qed.

Lemma distinct_names_perm (qs1 qs2 : list QueryResult.t) :
  qs1 ≡ₚ qs2 -> distinct_names qs1 = distinct_names qs2.
Proof.
  intros Hperm. unfold distinct_names.
  apply list_to_set_perm_L. by rewrite Hperm.
Qed.

Lemma distinct_names_cons (q : QueryResult.t) (qs : list QueryResult.t) :
  distinct_names (q :: qs)
  = list_to_set (repository_names q) ∪ distinct_names qs.
Proof. unfold distinct_names. by rewrite bind_cons, list_to_set_app_L. Qed.

(** The visit of a map, whatever its order, sees the snapshots of the map. *)
Lemma visited_snapshots (store : gmap string QueryResult.t)
    (order : list (string * QueryResult.t)) :
  order ≡ₚ map_to_list store -> order.*2 ≡ₚ snapshots store.
Proof. intros Hperm. unfold snapshots. by rewrite Hperm. Qed.

(** The keys of the counting map after one inner loop. *)
Lemma count_repositories_dom (l : list QueryResult.ByRepository)
    (m : gmap string Z) :
  dom (count_repositories l m) = dom m ∪ list_to_set (name_of <$> l).
Proof.
  unfold count_repositories. revert m.
  induction l as [|x l IH]; intros m.
  - set_solver.
  - cbn [foldl]. rewrite IH, dom_insert_L, fmap_cons, list_to_set_cons.
    unfold name_of. set_solver.
Qed.

(** One round of the outer loop. *)
Lemma Aggregate_step_fields (a : AggregatedResults.t) (u : gmap string Z)
    (l : list Event) (key : string) (q : QueryResult.t) (t1 t2 : Z) :
  AggregatedResults.TotalCommitContributions a = GoInt.wrap t1 ->
  AggregatedResults.TotalOtherContributions a = GoInt.wrap t2 ->
  exists a1 u1,
    Aggregate_step (a, u, l) (key, q) = (a1, u1, Logged key :: l)
    /\ AggregatedResults.TotalCommitContributions a1
       = GoInt.wrap (t1 + commits q)
    /\ AggregatedResults.TotalOtherContributions a1
       = GoInt.wrap (t2 + others q)
    /\ dom u1 = dom u ∪ list_to_set (repository_names q).
Proof.
  intros Hc Ho. eexists _, _. split; [reflexivity|].
  cbn [AggregatedResults.TotalCommitContributions
       AggregatedResults.TotalOtherContributions].
  rewrite Hc, Ho. unfold GoInt.add. split; [|split].
  - by rewrite wrap_add_l.
  - rewrite wrap_add_l, wrap_add_r, Z.add_comm, <- Z.add_assoc, wrap_add_l.
    f_equal. unfold others. lia.
  - rewrite !count_repositories_dom. unfold repository_names.
    rewrite !fmap_app, !list_to_set_app_L. set_solver.
Qed.

(** The state of the outer loop after the visit of [order]. *)
Lemma Aggregate_fold (order : list (string * QueryResult.t)) :
  forall (a : AggregatedResults.t) (u : gmap string Z) (l : list Event)
         (t1 t2 : Z),
  AggregatedResults.TotalCommitContributions a = GoInt.wrap t1 ->
  AggregatedResults.TotalOtherContributions a = GoInt.wrap t2 ->
  exists a' u',
    foldl Aggregate_step (a, u, l) order
    = (a', u', rev (Logged <$> order.*1) ++ l)
    /\ AggregatedResults.TotalCommitContributions a'
       = GoInt.wrap (t1 + sum_over commits order.*2)
    /\ AggregatedResults.TotalOtherContributions a'
       = GoInt.wrap (t2 + sum_over others order.*2)
    /\ dom u' = dom u ∪ distinct_names order.*2.
Proof.
  induction order as [|[key q] order IH]; intros a u l t1 t2 Hc Ho.
  - exists a, u. simpl. rewrite !Z.add_0_r.
    repeat split; [done|done|]. unfold distinct_names. set_solver.
  - cbn [foldl].
    destruct (Aggregate_step_fields a u l key q t1 t2 Hc Ho)
      as (a1 & u1 & -> & Hc1 & Ho1 & Hdom1).
    destruct (IH a1 u1 (Logged key :: l) _ _ Hc1 Ho1)
      as (a' & u' & -> & Hc' & Ho' & Hdom').
    exists a', u'. rewrite !fmap_cons. cbn [fst snd]. split.
    { f_equal. simpl. by rewrite <- app_assoc. }
    rewrite Hc', Ho', Hdom', Hdom1, distinct_names_cons.
    split; [f_equal; simpl; lia|]. split; [f_equal; simpl; lia|].
    set_solver.
Qed.

(** [Aggregate] in closed form: the sums as [int]s, the number of distinct
    names, the clock, no error, one line of log for each key visited. *)
Lemma Aggregate_fields (r : t) (order : list (string * QueryResult.t))
    (now : Z) :
  Aggregate r order now
  = (({| AggregatedResults.Timestamp := GoInt.wrap now;
         AggregatedResults.TotalCommitContributions :=
           GoInt.wrap (sum_over commits order.*2);
         AggregatedResults.TotalRepositories :=
           Z.of_nat (size (distinct_names order.*2));
         AggregatedResults.TotalOtherContributions :=
           GoInt.wrap (sum_over others order.*2) |},
      None),
     Logged <$> order.*1).
Proof.
  unfold Aggregate.
  destruct (Aggregate_fold order AggregatedResults.zero ∅ [] 0 0)
    as (a' & u' & Hfold & Hc & Ho & Hdom); [done|done|].
  rewrite Hfold, Hc, Ho, app_nil_r, rev_involutive, <- size_dom, Hdom.
  rewrite dom_empty_L, (left_id_L ∅ (∪)). reflexivity.
Qed.

Lemma repository_names_relocate (url : string) (q : QueryResult.t) :
  repository_names (relocate url q) = repository_names q.
Proof.
  unfold repository_names, relocate. simpl.
  rewrite <- !fmap_app, <- list_fmap_compose.
  by apply list_fmap_ext.
Qed.

Lemma distinct_names_relocate (url : string) (qs : list QueryResult.t) :
  distinct_names (relocate url <$> qs) = distinct_names qs.
Proof.
  induction qs as [|q qs IH]; [done|].
  by rewrite fmap_cons, !distinct_names_cons, repository_names_relocate, IH.
Qed.

Lemma snapshots_relocate (url : string) (store : gmap string QueryResult.t) :
  snapshots (relocate url <$> store) ≡ₚ relocate url <$> snapshots store.
Proof.
  unfold snapshots. rewrite map_to_list_fmap, <- !list_fmap_compose.
  apply reflexive_eq, list_fmap_ext. by intros _ [key q] _.
Qed.

(** A name listed by a snapshot of the map is one of its distinct names. *)
Lemma listed_name_distinct (store : gmap string QueryResult.t)
    (key : string) (q : QueryResult.t) (name : string) :
  store !! key = Some q -> name ∈ repository_names q ->
  name ∈ distinct_names (snapshots store).
Proof.
  intros Hkey Hname. unfold distinct_names, snapshots.
  apply elem_of_list_to_set, list_elem_of_bind. exists q. split; [done|].
  apply list_elem_of_fmap. exists (key, q). split; [done|].
  by apply elem_of_map_to_list.
Qed.

Lemma size_with_member (names : gset string) (name : string) :
  name ∈ names ->
  Z.of_nat (size names) = 1 + Z.of_nat (size (names ∖ {[name]})).
Proof.
  intros Hin.
  rewrite (union_difference_L {[name]} names) at 1 by set_solver.
  rewrite size_union by set_solver. rewrite size_singleton. lia.
Qed.

Lemma sum_over_bound {A : Type} (f : A -> Z) (bound : Z) (l : list A) :
  (forall x, x ∈ l -> - bound <= f x <= bound) ->
  - (Z.of_nat (length l) * bound) <= sum_over f l
  <= Z.of_nat (length l) * bound.
Proof.
  induction l as [|x l IH]; intros Hall; [simpl; lia|].
  pose proof (Hall x ltac:(left)) as Hx.
  assert (Hl : forall y, y ∈ l -> - bound <= f y <= bound)
    by (intros y Hy; apply Hall; by right).
  specialize (IH Hl). cbn [sum_over foldr length] in *.
  fold (sum_over f l) in *. lia.
Qed.

(** When the sums certainly fit an [int]: 32-bit counts in fewer than
    [2 ^ 30] snapshots. *)
Lemma sums_fit_int (store : gmap string QueryResult.t) :
  map_Forall (fun _ q => counts_int32 q) store ->
  Z.of_nat (size store) < 2 ^ 30 ->
  GoInt.in_range (sum_over commits (snapshots store))
  /\ GoInt.in_range (sum_over others (snapshots store)).
Proof.
  intros Hall Hsize.
  assert (Hq : forall q, q ∈ snapshots store -> counts_int32 q).
  { intros q ([key q'] & -> & Hin)%list_elem_of_fmap.
    apply elem_of_map_to_list in Hin. exact (Hall _ _ Hin). }
  assert (Hlen : length (snapshots store) = size store).
  { unfold snapshots. by rewrite length_fmap, length_map_to_list. }
  unfold GoInt.in_range, GoInt.minInt, GoInt.maxInt, GoInt.intSize.
  split.
  - pose proof (sum_over_bound commits (2 ^ 31) (snapshots store)) as Hc.
    rewrite Hlen in Hc. assert (Hc' := Hc ltac:(
      intros q Hin; destruct (Hq q Hin) as (H1 & _);
      unfold commits, GoInt.in_int32 in *; lia)).
    nia.
  - pose proof (sum_over_bound others (3 * 2 ^ 31) (snapshots store)) as Ho.
    rewrite Hlen in Ho. assert (Ho' := Ho ltac:(
      intros q Hin; destruct (Hq q Hin) as (_ & H2 & H3 & H4);
      unfold others, GoInt.in_int32 in *; simpl; lia)).
    nia.
Qed.

(** C4. For the map of stored snapshots, visited in any order, and sums
    that fit an [int]: the total of commits is the sum of the commit
    counts of all snapshots, the total of other contributions is the sum
    of their issue, pull request and review counts, the total of
    repositories is the number of distinct names in the four lists of all
    snapshots, and no error is returned. For the two snapshots of the
    end-to-end scenario this gives 15, 8 and 3. *)
Theorem Aggregate_totals (r : t) (store : gmap string QueryResult.t)
    (order : list (string * QueryResult.t)) (now : Z) :
  order ≡ₚ map_to_list store ->
  GoInt.in_range (sum_over commits (snapshots store)) ->
  GoInt.in_range (sum_over others (snapshots store)) ->
  let result := Aggregate r order now in
  let aggregatedResults := result.1.1 in
  result.1.2 = None
  /\ AggregatedResults.TotalCommitContributions aggregatedResults
     = sum_over commits (snapshots store)
  /\ AggregatedResults.TotalOtherContributions aggregatedResults
     = sum_over others (snapshots store)
  /\ AggregatedResults.TotalRepositories aggregatedResults
     = Z.of_nat (size (distinct_names (snapshots store)))
  /\ (store = Fixture.two_users ->
      AggregatedResults.TotalCommitContributions aggregatedResults = 15
      /\ AggregatedResults.TotalOtherContributions aggregatedResults = 8
      /\ AggregatedResults.TotalRepositories aggregatedResults = 3).
Proof.
  intros Hperm Hcommits Hothers. apply visited_snapshots in Hperm.
  rewrite Aggregate_fields. cbn zeta. simpl.
  rewrite (sum_over_perm commits _ _ Hperm), (sum_over_perm others _ _ Hperm),
          (distinct_names_perm _ _ Hperm), !wrap_in_range by done.
  do 4 (split; [reflexivity|]). intros ->. by vm_compute.
Qed.

Lemma Aggregate_totals_witness :
  map_to_list Fixture.two_users ≡ₚ map_to_list Fixture.two_users
  /\ GoInt.in_range (sum_over commits (snapshots Fixture.two_users))
  /\ GoInt.in_range (sum_over others (snapshots Fixture.two_users))
  /\ let aggregatedResults :=
       (Aggregate Fixture.octocat (map_to_list Fixture.two_users)
                  1730498450).1.1 in
     AggregatedResults.TotalCommitContributions aggregatedResults = 15
     /\ AggregatedResults.TotalOtherContributions aggregatedResults = 8
     /\ AggregatedResults.TotalRepositories aggregatedResults = 3.
Proof.
  assert (H1 : map_to_list Fixture.two_users ≡ₚ map_to_list Fixture.two_users)
    by reflexivity.
  assert (H2 : GoInt.in_range (sum_over commits (snapshots Fixture.two_users)))
    by (vm_compute; split; discriminate).
  assert (H3 : GoInt.in_range (sum_over others (snapshots Fixture.two_users)))
    by (vm_compute; split; discriminate).
  split; [exact H1|]. split; [exact H2|]. split; [exact H3|].
  apply (Aggregate_totals Fixture.octocat Fixture.two_users
           (map_to_list Fixture.two_users) 1730498450 H1 H2 H3).
  reflexivity.
Defined.

(** C5. The total of repositories counts names and nothing else. For the
    map of stored snapshots, visited in any order: the total is the size
    of the set of names; a name that a snapshot lists, however many
    snapshots and lists repeat it, accounts for exactly 1 of the total;
    moving every repository of the map to another address leaves the
    total as it is; and the two snapshots that list [repoA] at different
    addresses, one under commits and one under issues, give 1. *)
Theorem Aggregate_counts_names_once (r : t)
    (store : gmap string QueryResult.t)
    (order : list (string * QueryResult.t)) (now : Z) :
  order ≡ₚ map_to_list store ->
  let total :=
    AggregatedResults.TotalRepositories (Aggregate r order now).1.1 in
  total = Z.of_nat (size (distinct_names (snapshots store)))
  /\ (forall key q name,
        store !! key = Some q -> name ∈ repository_names q ->
        total
        = 1 + Z.of_nat (size (distinct_names (snapshots store) ∖ {[name]})))
  /\ (forall url moved,
        moved ≡ₚ map_to_list (relocate url <$> store) ->
        AggregatedResults.TotalRepositories (Aggregate r moved now).1.1
        = total)
  /\ (store = Fixture.repoA_twice -> total = 1).
Proof.
  intros Hperm. apply visited_snapshots in Hperm.
  rewrite Aggregate_fields. cbn zeta. simpl.
  rewrite (distinct_names_perm _ _ Hperm).
  split; [done|]. split; [|split].
  - intros key q name Hkey Hname.
    by apply size_with_member, (listed_name_distinct store key q).
  - intros url moved Hmoved. apply visited_snapshots in Hmoved.
    rewrite Aggregate_fields. simpl.
    by rewrite (distinct_names_perm _ _ Hmoved),
               (distinct_names_perm _ _ (snapshots_relocate url store)),
               distinct_names_relocate.
  - intros ->. by vm_compute.
Qed.

Lemma Aggregate_counts_names_once_witness :
  map_to_list Fixture.repoA_twice ≡ₚ map_to_list Fixture.repoA_twice
  /\ AggregatedResults.TotalRepositories
       (Aggregate Fixture.octocat (map_to_list Fixture.repoA_twice)
                  1730498450).1.1 = 1.
Proof.
  assert (H1 : map_to_list Fixture.repoA_twice
               ≡ₚ map_to_list Fixture.repoA_twice) by reflexivity.
  split; [exact H1|].
  apply (Aggregate_counts_names_once Fixture.octocat Fixture.repoA_twice
           (map_to_list Fixture.repoA_twice) 1730498450 H1).
  reflexivity.
Defined.

(** C9. Two visits of the same map, in whatever orders and at whatever
    times, give the same total of commits, the same total of other
    contributions and the same total of repositories; the timestamp of
    each result is the clock of its run, and two runs at the same reading
    of the clock give the same result. *)
Theorem Aggregate_order_independent (r : t)
    (store : gmap string QueryResult.t)
    (order1 order2 : list (string * QueryResult.t)) (now1 now2 : Z) :
  order1 ≡ₚ map_to_list store -> order2 ≡ₚ map_to_list store ->
  let a1 := (Aggregate r order1 now1).1.1 in
  let a2 := (Aggregate r order2 now2).1.1 in
  AggregatedResults.TotalCommitContributions a1
  = AggregatedResults.TotalCommitContributions a2
  /\ AggregatedResults.TotalOtherContributions a1
     = AggregatedResults.TotalOtherContributions a2
  /\ AggregatedResults.TotalRepositories a1
     = AggregatedResults.TotalRepositories a2
  /\ AggregatedResults.Timestamp a1 = GoInt.wrap now1
  /\ AggregatedResults.Timestamp a2 = GoInt.wrap now2
  /\ (now1 = now2 -> a1 = a2).
Proof.
  intros Hperm1 Hperm2.
  assert (Hperm : order1.*2 ≡ₚ order2.*2) by (by rewrite Hperm1, Hperm2).
  rewrite !Aggregate_fields. cbn zeta. simpl.
  rewrite (sum_over_perm commits _ _ Hperm), (sum_over_perm others _ _ Hperm),
          (distinct_names_perm _ _ Hperm).
  do 5 (split; [reflexivity|]). by intros ->.
Qed.

Lemma Aggregate_order_independent_witness :
  map_to_list Fixture.two_users ≡ₚ map_to_list Fixture.two_users
  /\ reverse (map_to_list Fixture.two_users) ≡ₚ map_to_list Fixture.two_users
  /\ AggregatedResults.TotalRepositories
       (Aggregate Fixture.octocat (map_to_list Fixture.two_users)
                  1730498450).1.1
     = AggregatedResults.TotalRepositories
         (Aggregate Fixture.octocat (reverse (map_to_list Fixture.two_users))
                    1730498451).1.1.
Proof.
  assert (H1 : map_to_list Fixture.two_users ≡ₚ map_to_list Fixture.two_users)
    by reflexivity.
  assert (H2 : reverse (map_to_list Fixture.two_users)
               ≡ₚ map_to_list Fixture.two_users)
    by apply reverse_Permutation.
  split; [exact H1|]. split; [exact H2|].
  apply (Aggregate_order_independent Fixture.octocat Fixture.two_users
           (map_to_list Fixture.two_users)
           (reverse (map_to_list Fixture.two_users))
           1730498450 1730498451 H1 H2).
Defined.

(** C10. The receiver plays no part: two reporters, whatever their users,
    clients and years, aggregating the same map (each visit in its own
    order and at its own time) return the same three totals; on the same
    visit and clock [Aggregate] and [Report] return the same for both; and
    the line a run of [main] prints last is the report of any reporter at
    all over the map that the credentials filled together. *)
Theorem Aggregate_ignores_receiver (r1 r2 : t)
    (store : gmap string QueryResult.t)
    (order1 order2 : list (string * QueryResult.t)) (now1 now2 : Z) :
  order1 ≡ₚ map_to_list store -> order2 ≡ₚ map_to_list store ->
  let a1 := (Aggregate r1 order1 now1).1.1 in
  let a2 := (Aggregate r2 order2 now2).1.1 in
  AggregatedResults.TotalCommitContributions a1
  = AggregatedResults.TotalCommitContributions a2
  /\ AggregatedResults.TotalOtherContributions a1
     = AggregatedResults.TotalOtherContributions a2
  /\ AggregatedResults.TotalRepositories a1
     = AggregatedResults.TotalRepositories a2
  /\ Aggregate r1 order1 now1 = Aggregate r2 order1 now1
  /\ Report r1 order1 now1 = Report r2 order1 now1
  /\ (forall fuel github config thisYear credentials range final tr,
        Main.main fuel github config thisYear credentials range now1
        = Some (Returned tt, final, tr) ->
        last tr = Some (Logged (Report r1 (range final) now1).1.1)).
Proof.
  intros Hperm1 Hperm2.
  assert (Hperm : order1.*2 ≡ₚ order2.*2) by (by rewrite Hperm1, Hperm2).
  rewrite !Aggregate_fields. cbn zeta. simpl.
  rewrite (sum_over_perm commits _ _ Hperm), (sum_over_perm others _ _ Hperm),
          (distinct_names_perm _ _ Hperm).
  do 5 (split; [reflexivity|]).
  intros fuel github config thisYear credentials range final tr.
  unfold Main.main.
  destruct (Main.credentials_loop _ _ _ _ _ _ _)
    as [[[[reporter| |] queryResults] collected]|]; [|done..].
  change (Report reporter (range queryResults) now1)
    with (Report r1 (range queryResults) now1).
  destruct (Report r1 (range queryResults) now1) as [[json err] reported] eqn:Hreport.
  intros [= <- <-]. rewrite Hreport. simpl.
  by rewrite !app_assoc, last_snoc.
Qed.

Lemma Aggregate_ignores_receiver_witness :
  map_to_list Fixture.two_users ≡ₚ map_to_list Fixture.two_users
  /\ reverse (map_to_list Fixture.two_users) ≡ₚ map_to_list Fixture.two_users
  /\ AggregatedResults.TotalCommitContributions
       (Aggregate Fixture.octocat (map_to_list Fixture.two_users)
                  1730498450).1.1
     = AggregatedResults.TotalCommitContributions
         (Aggregate zero (reverse (map_to_list Fixture.two_users))
                    1730498451).1.1.
Proof.
  assert (H1 : map_to_list Fixture.two_users ≡ₚ map_to_list Fixture.two_users)
    by reflexivity.
  assert (H2 : reverse (map_to_list Fixture.two_users)
               ≡ₚ map_to_list Fixture.two_users)
    by apply reverse_Permutation.
  split; [exact H1|]. split; [exact H2|].
  apply (Aggregate_ignores_receiver Fixture.octocat zero Fixture.two_users
           (map_to_list Fixture.two_users)
           (reverse (map_to_list Fixture.two_users))
           1730498450 1730498451 H1 H2).
Defined.

End Aggregation.

(** *** More on the keys of the map *)

Section KeyFacts.

Import Observed.

Lemma to_int_proper (z : Z) :
  Z.to_int z <> Decimal.Pos Decimal.Nil /\ Z.to_int z <> Decimal.Neg Decimal.Nil.
Proof.
  destruct z as [|p|p]; simpl; split; try discriminate;
    intros [= Hnil]; by apply Unsigned.to_uint_nonnil in Hnil.
Qed.

Lemma Itoa_inj (x y : Z) : strconv.Itoa x = strconv.Itoa y -> x = y.
Proof.
  unfold strconv.Itoa. intros Heq. apply DecimalZ.to_int_inj.
  destruct (to_int_proper x) as [Hx1 Hx2], (to_int_proper y) as [Hy1 Hy2].
  pose proof (NilZero.isi (Z.to_int x) Hx1 Hx2) as Hx.
  pose proof (NilZero.isi (Z.to_int y) Hy1 Hy2) as Hy.
  rewrite Heq in Hx. congruence.
Qed.

Lemma userYear_same_user (user : string) (y1 y2 : Z) :
  userYear user y1 = userYear user y2 -> y1 = y2.
Proof.
  unfold userYear. intros Heq.
  apply String.app_inj in Heq. apply String.app_inj in Heq.
  by apply Itoa_inj.
Qed.

Lemma occurs_app (c : Ascii.ascii) (s1 s2 : string) :
  occurs c (s1 +:+ s2) = occurs c s1 || occurs c s2.
Proof.
  induction s1 as [|c' s1 IH]; simpl; [done|].
  by rewrite IH, orb_assoc.
Qed.

Lemma digits_no_dash (d : Decimal.uint) :
  occurs dash (NilEmpty.string_of_uint d) = false.
Proof. induction d; simpl; by rewrite ?IHd. Qed.

Lemma Itoa_no_dash (y : Z) : 0 <= y -> occurs dash (strconv.Itoa y) = false.
Proof.
  intros Hy. unfold strconv.Itoa. destruct y as [|p|p]; [done| |lia].
  simpl. pose proof (Unsigned.to_uint_nonnil p) as Hnil.
  destruct (Pos.to_uint p) eqn:Hp; [done|..]; rewrite <- Hp;
    unfold NilZero.string_of_uint; rewrite Hp; rewrite <- Hp;
    apply digits_no_dash.
Qed.

(** Splitting at the last dash is unambiguous. *)
Lemma split_at_last_dash (u1 u2 d1 d2 : string) :
  occurs dash d1 = false -> occurs dash d2 = false ->
  u1 +:+ String dash d1 = u2 +:+ String dash d2 -> u1 = u2 /\ d1 = d2.
Proof.
  intros Hd1 Hd2. revert u2.
  induction u1 as [|c1 u1 IH]; intros [|c2 u2]; simpl.
  - by intros [= ->].
  - intros [= <- ->]. rewrite occurs_app in Hd1. cbn [occurs] in Hd1.
    by rewrite Ascii.eqb_refl, orb_true_l, orb_true_r in Hd1.
  - intros [= -> <-]. rewrite occurs_app in Hd2. cbn [occurs] in Hd2.
    by rewrite Ascii.eqb_refl, orb_true_l, orb_true_r in Hd2.
  - intros [= -> Heq]. by destruct (IH _ Heq) as [-> ->].
Qed.

(** X6. Two keys of [Collect] for years that are not negative are
    equal only for the same user and the same year, so answers for
    different users or years never share an entry of the map; for one
    user this holds for all years; with a negative year the keys of two
    users can coincide. *)
Theorem userYear_injective (user1 user2 : string) (y1 y2 : Z) :
  0 <= y1 -> 0 <= y2 ->
  userYear user1 y1 = userYear user2 y2 ->
  (user1 = user2 /\ y1 = y2)
  /\ (forall user z1 z2, userYear user z1 = userYear user z2 -> z1 = z2)
  /\ userYear "x" (-5) = userYear "x-" 5.
Proof.
  intros Hy1 Hy2 Heq. split; [|split].
  - unfold userYear in Heq.
    destruct (split_at_last_dash user1 user2 (strconv.Itoa y1) (strconv.Itoa y2))
      as [Huser Hyear]; [by apply Itoa_no_dash..|exact Heq|].
    split; [done|]. by apply Itoa_inj.
  - apply userYear_same_user.
  - reflexivity.
Qed.

Lemma userYear_injective_witness :
  0 <= 2024 /\ 0 <= 2024
  /\ userYear "octocat" 2024 = userYear "octocat" 2024
  /\ "octocat" = "octocat" /\ 2024 = 2024.
Proof.
  assert (H1 : 0 <= 2024) by lia.
  assert (H2 : userYear "octocat" 2024 = userYear "octocat" 2024)
    by reflexivity.
  split; [exact H1|]. split; [exact H1|]. split; [exact H2|].
  exact (proj1 (userYear_injective "octocat" "octocat" 2024 2024 H1 H1 H2)).
Defined.

End KeyFacts.

(** *** More on [Collect] *)

Section MoreCollection.

Import Reporter Observed.

Lemma queried_years_asked (tr : Trace) : queried_years tr = (asked tr).*2.
Proof.
  unfold queried_years.
  induction tr as [|[line|login y res err] tr IH]; cbn [queries asked];
    [done|done|].
  by rewrite !fmap_cons, IH.
Qed.

Lemma asked_app (tr1 tr2 : Trace) : asked (tr1 ++ tr2) = asked tr1 ++ asked tr2.
Proof.
  induction tr1 as [|[line|login y res err] tr1 IH]; simpl; [done|done|].
  by rewrite IH.
Qed.

Lemma store_round_asked r y q store : asked (store_round r y q store).2 = [].
Proof.
  unfold store_round.
  by destruct (String.eqb (QueryResult.Login (QueryResult.User q)) EmptyString).
Qed.

(** How a run of the loop can end. *)
Lemma Collect_loop_ends (r : t) (fuel : nat) :
  forall (y : Z) (q : QueryResult.t) (store : gmap string QueryResult.t)
         out store' tr,
  Collect_loop fuel r y q store = Some (out, store', tr) ->
  (out = Returned None /\ no_query_failed tr)
  \/ (exists yr res e,
        out = Exited 1 /\ last (queries tr) = Some (yr, res, Some e)
        /\ last tr = Some (Logged e))
  \/ (out = Panicked /\ Client r = None /\ FirstYear r <= y
      /\ store' = store /\ tr = []).
Proof.
  unfold no_query_failed.
  induction fuel as [|fuel IH]; intros y q store out store' tr Hrun; [done|].
  rewrite Collect_loop_S in Hrun.
  destruct (Z.geb_spec y (FirstYear r)) as [Hge|Hlt].
  2:{ injection Hrun as <- <- <-. left. split; [done|].
      intros ? ? ? Hin. by apply elem_of_nil in Hin. }
  destruct (Client r) as [client|] eqn:Hclient.
  2:{ injection Hrun as <- <- <-. right. right. done. }
  destruct (client (User r) y q) as [q' [e|]].
  { injection Hrun as <- <- <-. right. left. by exists y, q', e. }
  pose proof (store_round_queries r y q' store) as Hstored.
  destruct (store_round r y q' store) as [store1 stored]. simpl in *.
  destruct (hasActivityInThePast q'); simpl in Hrun.
  - destruct (Collect_loop fuel r (GoInt.sub y 1) q' store1)
      as [[[out1 store2] rest]|] eqn:Hrec; [|done].
    injection Hrun as <- <- <-.
    cbn [queries]. rewrite queries_app, Hstored, app_nil_l.
    apply IH in Hrec as [[-> Hok]|[(yr & res & e & -> & Hlast & Hline)|
                                    (_ & Hnil & _)]]; [| |done].
    + left. split; [done|]. intros year result err Hin.
      apply elem_of_cons in Hin as [[= _ _ ->]|Hin]; [done|eauto].
    + right. left. exists yr, res, e. split; [done|]. split.
      * rewrite last_cons, Hlast. done.
      * rewrite last_cons, last_app, Hline. done.
  - injection Hrun as <- <- <-. left. split; [done|].
    cbn [queries]. rewrite Hstored. intros year result err Hin.
    by apply list_elem_of_singleton in Hin as [= _ _ ->].
Qed.

(** How a run of [Collect] can end. *)
Lemma Collect_ends_three_ways_aux (fuel : nat) (r : t)
    (store : gmap string QueryResult.t) out store' tr :
  Collect fuel r store = Some (out, store', tr) ->
  (out = Returned None /\ no_query_failed tr)
  \/ (exists yr res e,
        out = Exited 1 /\ last (queries tr) = Some (yr, res, Some e)
        /\ last tr = Some (Logged e))
  \/ (out = Panicked /\ Client r = None /\ FirstYear r <= LastYear r
      /\ store' = store /\ queries tr = []).
Proof.
  unfold Collect.
  destruct (Collect_loop fuel r (LastYear r) QueryResult.zero store)
    as [[[out1 store1] tr1]|] eqn:Hrun; [|done].
  intros [= <- <- <-].
  apply Collect_loop_ends in Hrun
    as [[-> Hok]|[(yr & res & e & -> & Hlast & Hline)|
                  (-> & Hnil & Hrange & -> & ->)]].
  - left. by split.
  - right. left. exists yr, res, e. split; [done|]. split; [done|].
    by rewrite last_cons, Hline.
  - right. right. done.
Qed.

(** X1. However a run of [Collect] ends, it does not hand an error to its
    caller: either it returns [nil] and no call of the client failed, or
    the last call failed and the process ended with status 1 right after
    printing that error, or there was no client and it panicked before
    asking anything, the map left as it was. *)
Theorem Collect_ends_three_ways (fuel : nat) (r : t)
    (store : gmap string QueryResult.t) out store' tr :
  Collect fuel r store = Some (out, store', tr) ->
  (out = Returned None /\ no_query_failed tr)
  \/ (exists yr res e,
        out = Exited 1 /\ last (queries tr) = Some (yr, res, Some e)
        /\ last tr = Some (Logged e))
  \/ (out = Panicked /\ Client r = None /\ FirstYear r <= LastYear r
      /\ store' = store /\ queries tr = []).
Proof. apply Collect_ends_three_ways_aux. Qed.

Lemma Collect_ends_three_ways_witness :
  exists store' tr,
    Collect 26 Fixture.octocat ∅ = Some (Returned None, store', tr)
    /\ no_query_failed tr.
Proof.
  assert (Hrun : exists store' tr,
            Collect 26 Fixture.octocat ∅ = Some (Returned None, store', tr))
    by (eexists _, _; vm_compute; reflexivity).
  destruct Hrun as (store' & tr & Hrun). exists store', tr.
  split; [exact Hrun|].
  destruct (Collect_ends_three_ways _ _ _ _ _ _ Hrun)
    as [[_ Hok]|[(yr & res & e & [=] & _)|([=] & _)]].
  exact Hok.
Defined.

(** What one round does to the rest of the map. *)
Lemma store_round_frame (r : t) (y : Z) (q : QueryResult.t)
    (store : gmap string QueryResult.t) :
  (forall key, key <> userYear (User r) y ->
               (store_round r y q store).1 !! key = store !! key)
  /\ dom store ⊆ dom (store_round r y q store).1
  /\ (size store <= size (store_round r y q store).1 <= S (size store))%nat.
Proof.
  unfold store_round, userYear.
  destruct (String.eqb (QueryResult.Login (QueryResult.User q)) EmptyString);
    simpl; [split; [done|]; split; [done|lia]|].
  split; [|split].
  - intros key Hkey. by rewrite lookup_insert_ne.
  - apply dom_insert_subseteq.
  - rewrite map_size_insert. destruct (store !! _); simpl; lia.
Qed.

(** The logins and years of a run entered at [y]. *)
Lemma Collect_loop_asked (r : t) (fuel : nat) :
  GoInt.minInt < FirstYear r ->
  forall (y : Z) (q : QueryResult.t) (store : gmap string QueryResult.t)
         out store' tr,
  y <= GoInt.maxInt ->
  Collect_loop fuel r y q store = Some (out, store', tr) ->
  forall login year, (login, year) ∈ asked tr ->
                     login = User r /\ FirstYear r <= year <= y.
Proof.
  intros Hfirst.
  induction fuel as [|fuel IH]; intros y q store out store' tr Hy Hrun; [done|].
  rewrite Collect_loop_S in Hrun.
  destruct (Z.geb_spec y (FirstYear r)) as [Hge|Hlt].
  2:{ injection Hrun as <- <- <-. intros ? ? Hin. by apply elem_of_nil in Hin. }
  destruct (Client r) as [client|].
  2:{ injection Hrun as <- <- <-. intros ? ? Hin. by apply elem_of_nil in Hin. }
  destruct (client (User r) y q) as [q' [e|]].
  { injection Hrun as <- <- <-. simpl. intros login year Hin.
    apply list_elem_of_singleton in Hin as [= -> ->]. split; [done|lia]. }
  pose proof (store_round_asked r y q' store) as Hstored.
  destruct (store_round r y q' store) as [store1 stored]. simpl in *.
  destruct (hasActivityInThePast q'); simpl in Hrun.
  - rewrite sub_1_exact in Hrun by lia.
    destruct (Collect_loop fuel r (y - 1) q' store1)
      as [[[out1 store2] rest]|] eqn:Hrec; [|done].
    injection Hrun as <- <- <-.
    cbn [asked]. rewrite asked_app, Hstored, app_nil_l.
    intros login year Hin.
    apply elem_of_cons in Hin as [[= -> ->]|Hin]; [split; [done|lia]|].
    assert (Hy' : y - 1 <= GoInt.maxInt) by lia.
    destruct (IH _ _ _ _ _ _ Hy' Hrec _ _ Hin) as [-> ?].
    split; [done|lia].
  - injection Hrun as <- <- <-. cbn [asked]. rewrite Hstored.
    intros login year Hin.
    apply list_elem_of_singleton in Hin as [= -> ->]. split; [done|lia].
Qed.

(** What a run does to the rest of the map. *)
Lemma Collect_loop_frame (r : t) (fuel : nat) :
  forall (y : Z) (q : QueryResult.t) (store : gmap string QueryResult.t)
         out store' tr,
  Collect_loop fuel r y q store = Some (out, store', tr) ->
  (forall key,
      (forall year, year ∈ queried_years tr -> key <> userYear (User r) year) ->
      store' !! key = store !! key)
  /\ dom store ⊆ dom store'
  /\ (size store <= size store' <= size store + length (queries tr))%nat.
Proof.
  unfold queried_years.
  induction fuel as [|fuel IH]; intros y q store out store' tr Hrun; [done|].
  rewrite Collect_loop_S in Hrun.
  destruct (y >=? FirstYear r).
  2:{ injection Hrun as <- <- <-. simpl. split; [done|]. split; [done|lia]. }
  destruct (Client r) as [client|].
  2:{ injection Hrun as <- <- <-. simpl. split; [done|]. split; [done|lia]. }
  destruct (client (User r) y q) as [q' [e|]].
  { injection Hrun as <- <- <-. simpl. split; [done|]. split; [done|lia]. }
  pose proof (store_round_queries r y q' store) as Hstored.
  destruct (store_round_frame r y q' store) as (Hother & Hdom & Hsize).
  destruct (store_round r y q' store) as [store1 stored]. simpl in *.
  destruct (hasActivityInThePast q'); simpl in Hrun.
  - destruct (Collect_loop fuel r (GoInt.sub y 1) q' store1)
      as [[[out1 store2] rest]|] eqn:Hrec; [|done].
    injection Hrun as <- <- <-.
    apply IH in Hrec as (Hother' & Hdom' & Hsize').
    cbn [queries]. rewrite queries_app, Hstored, app_nil_l, !fmap_cons.
    cbn [fst length]. split; [|split].
    + intros key Hkey. rewrite Hother'.
      * apply Hother, Hkey. left.
      * intros year Hin. apply Hkey. by right.
    + set_solver.
    + lia.
  - injection Hrun as <- <- <-.
    cbn [queries]. rewrite Hstored, !fmap_cons. cbn [fst length].
    split; [|split; [done|simpl; lia]].
    intros key Hkey. apply Hother, Hkey. left.
Qed.

(** X2. A run of [Collect] that ends leaves alone every entry of the map
    whose key is not the key of its user and of a year it asked about,
    removes no key, and adds at most one entry for each call of the
    client. *)
Theorem Collect_keeps_other_entries (fuel : nat) (r : t)
    (store : gmap string QueryResult.t) out store' tr :
  Collect fuel r store = Some (out, store', tr) ->
  (forall key,
      (forall year, year ∈ queried_years tr -> key <> userYear (User r) year) ->
      store' !! key = store !! key)
  /\ dom store ⊆ dom store'
  /\ (size store <= size store' <= size store + length (queries tr))%nat.
Proof.
  unfold Collect.
  destruct (Collect_loop fuel r (LastYear r) QueryResult.zero store)
    as [[[out1 store1] tr1]|] eqn:Hrun; [|done].
  intros [= <- <- <-]. by apply Collect_loop_frame in Hrun.
Qed.

Lemma Collect_keeps_other_entries_witness :
  exists out store' tr,
    Collect 26 Fixture.octocat Fixture.two_users = Some (out, store', tr)
    /\ store' !! "A-2024" = Fixture.two_users !! "A-2024"
    /\ (size store' <= 2 + length (queries tr))%nat.
Proof.
  assert (Hrun : exists out store' tr,
            Collect 26 Fixture.octocat Fixture.two_users
            = Some (out, store', tr)
            /\ queried_years tr = [2024; 2023; 2022])
    by (eexists _, _, _; vm_compute; split; reflexivity).
  destruct Hrun as (out & store' & tr & Hrun & Hyears).
  exists out, store', tr. split; [exact Hrun|].
  destruct (Collect_keeps_other_entries _ _ _ _ _ _ Hrun)
    as (Hother & _ & _ & Hsize).
  split; [|exact Hsize].
  apply Hother. rewrite Hyears. intros year Hin Heq.
  apply (f_equal (fun key => String.get 0 key)) in Heq.
  vm_compute in Heq. discriminate Heq.
Defined.

(** Each answer with a login is in the map after the run, under the key
    of its year: later rounds write under other keys. *)
Lemma Collect_loop_exact (r : t) (fuel : nat) :
  GoInt.minInt < FirstYear r ->
  forall (y : Z) (q : QueryResult.t) (store : gmap string QueryResult.t)
         out store' tr,
  y <= GoInt.maxInt ->
  Collect_loop fuel r y q store = Some (out, store', tr) ->
  forall year snapshot,
    (year, snapshot, None) ∈ queries tr ->
    QueryResult.Login (QueryResult.User snapshot) <> EmptyString ->
    store' !! userYear (User r) year = Some snapshot.
Proof.
  intros Hfirst.
  induction fuel as [|fuel IH]; intros y q store out store' tr Hy Hrun; [done|].
  rewrite Collect_loop_S in Hrun.
  destruct (Z.geb_spec y (FirstYear r)) as [Hge|Hlt].
  2:{ injection Hrun as <- <- <-. intros ? ? Hin. by apply elem_of_nil in Hin. }
  destruct (Client r) as [client|].
  2:{ injection Hrun as <- <- <-. intros ? ? Hin. by apply elem_of_nil in Hin. }
  destruct (client (User r) y q) as [q' [e|]].
  { injection Hrun as <- <- <-. simpl. intros year snapshot Hin.
    by apply list_elem_of_singleton in Hin. }
  assert (Hhere :
    QueryResult.Login (QueryResult.User q') <> EmptyString ->
    (store_round r y q' store).1 !! userYear (User r) y = Some q').
  { unfold store_round, userYear.
    destruct (String.eqb_spec (QueryResult.Login (QueryResult.User q'))
                              EmptyString); simpl; [done|].
    by rewrite lookup_insert_eq. }
  pose proof (store_round_queries r y q' store) as Hstored.
  destruct (store_round r y q' store) as [store1 stored]. simpl in *.
  destruct (hasActivityInThePast q'); simpl in Hrun.
  - rewrite sub_1_exact in Hrun by lia.
    destruct (Collect_loop fuel r (y - 1) q' store1)
      as [[[out1 store2] rest]|] eqn:Hrec; [|done].
    injection Hrun as <- <- <-.
    assert (Hy' : y - 1 <= GoInt.maxInt) by lia.
    cbn [queries]. rewrite queries_app, Hstored, app_nil_l.
    intros year snapshot Hin Hlogin.
    apply elem_of_cons in Hin as [[= -> ->]|Hin].
    + destruct (Collect_loop_frame _ _ _ _ _ _ _ _ Hrec) as (Hother & _).
      rewrite Hother; [by apply Hhere|].
      intros year Hyear Heq. apply userYear_same_user in Heq as <-.
      rewrite queried_years_asked in Hyear.
      apply list_elem_of_fmap in Hyear as ([login year'] & -> & Hasked).
      destruct (Collect_loop_asked r fuel Hfirst _ _ _ _ _ _ Hy' Hrec
                  _ _ Hasked) as [_ Hle].
      simpl in Hle. lia.
    + by apply (IH _ _ _ _ _ _ Hy' Hrec).
  - injection Hrun as <- <- <-. cbn [queries]. rewrite Hstored.
    intros year snapshot Hin Hlogin.
    apply list_elem_of_singleton in Hin as [= -> ->]. by apply Hhere.
Qed.

(** X3. For a reporter whose years are [int]s with [FirstYear] above the
    least one: after a run of [Collect] that ends, every answer that came
    without an error and with a login is the entry of the map under the
    key [<user>-<year>] of the year it was asked for; no later round of
    the run has overwritten it. *)
Theorem Collect_stores_each_answer (fuel : nat) (r : t)
    (store : gmap string QueryResult.t) out store' tr :
  GoInt.minInt < FirstYear r -> LastYear r <= GoInt.maxInt ->
  Collect fuel r store = Some (out, store', tr) ->
  forall year snapshot,
    (year, snapshot, None) ∈ queries tr ->
    QueryResult.Login (QueryResult.User snapshot) <> EmptyString ->
    store' !! userYear (User r) year = Some snapshot.
Proof.
  intros Hfirst Hlast. unfold Collect.
  destruct (Collect_loop fuel r (LastYear r) QueryResult.zero store)
    as [[[out1 store1] tr1]|] eqn:Hrun; [|done].
  intros [= <- <- <-]. cbn [queries].
  by apply (Collect_loop_exact r fuel Hfirst _ _ _ _ _ _ Hlast Hrun).
Qed.

Lemma Collect_stores_each_answer_witness :
  GoInt.minInt < FirstYear Fixture.octocat
  /\ LastYear Fixture.octocat <= GoInt.maxInt
  /\ exists out store' tr,
       Collect 26 Fixture.octocat ∅ = Some (out, store', tr)
       /\ store' !! userYear "octocat" 2022
          = Some (Fixture.snapshot "octocat" false 1 0 0 0 [] [] [] []).
Proof.
  assert (H1 : GoInt.minInt < FirstYear Fixture.octocat) by (by vm_compute).
  assert (H2 : LastYear Fixture.octocat <= GoInt.maxInt) by (by vm_compute).
  split; [exact H1|]. split; [exact H2|].
  assert (Hrun : exists out store' tr,
            Collect 26 Fixture.octocat ∅ = Some (out, store', tr)
            /\ queries tr !! 2%nat
               = Some (2022, Fixture.snapshot "octocat" false 1 0 0 0
                               [] [] [] [], None))
    by (eexists _, _, _; vm_compute; split; reflexivity).
  destruct Hrun as (out & store' & tr & Hrun & Hthird).
  exists out, store', tr. split; [exact Hrun|].
  apply (Collect_stores_each_answer _ _ _ _ _ _ H1 H2 Hrun).
  - by apply list_elem_of_lookup_2 in Hthird.
  - discriminate.
Defined.

(** With a client that always answers with activity in the past, the loop
    entered at [y] asks about every year down to [FirstYear]. *)
Lemma Collect_loop_active (r : t) (client : githubv4.Client) (fuel : nat) :
  GoInt.minInt < FirstYear r -> LastYear r <= GoInt.maxInt ->
  Client r = Some client -> always_active r client ->
  forall (y : Z) (q : QueryResult.t) (store : gmap string QueryResult.t),
  y <= LastYear r ->
  (Z.to_nat (y - FirstYear r + 1) < fuel)%nat ->
  exists store' tr,
    Collect_loop fuel r y q store = Some (Returned None, store', tr)
    /\ queried_years tr
       = (fun i : nat => y - Z.of_nat i)
           <$> seq 0 (Z.to_nat (y - FirstYear r + 1)).
Proof.
  intros Hfirst Hlast Hclient Hactive.
  induction fuel as [|fuel IH]; intros y q store Hy Hfuel; [lia|].
  destruct (Z.lt_ge_cases y (FirstYear r)) as [Hlt|Hge].
  { rewrite Collect_loop_S. destruct (Z.geb_spec y (FirstYear r)); [lia|].
    eexists _, _. split; [reflexivity|].
    by replace (Z.to_nat (y - FirstYear r + 1)) with 0%nat by lia. }
  destruct (Hactive y q ltac:(lia)) as (res & Hq & Hflag).
  destruct (IH (y - 1) res (store_round r y res store).1 ltac:(lia) ltac:(lia))
    as (store' & rest & Hrest & Hyears).
  rewrite <- (sub_1_exact y) in Hrest by lia.
  destruct (Collect_loop_goes_on r client fuel y q res store Hclient Hge Hq
              Hflag _ _ _ Hrest) as (tr & Hrun & Hqueries).
  exists store', tr. split; [exact Hrun|].
  unfold queried_years in *. rewrite Hqueries, !fmap_cons, Hyears.
  cbn [fst].
  replace (Z.to_nat (y - FirstYear r + 1))
    with (S (Z.to_nat (y - 1 - FirstYear r + 1))) by lia.
  apply shifted_years.
Qed.

(** X4. For a reporter whose years are [int]s with [FirstYear] above the
    least one and whose client answers every year of the range without an
    error and with activity in the past, given fuel for the range:
    [Collect] returns [nil] after asking about every year from [LastYear]
    down to [FirstYear], each once. *)
Theorem Collect_covers_active_range (fuel : nat) (r : t)
    (client : githubv4.Client) (store : gmap string QueryResult.t) :
  GoInt.minInt < FirstYear r -> LastYear r <= GoInt.maxInt ->
  Client r = Some client -> always_active r client ->
  (Z.to_nat (LastYear r - FirstYear r + 1) < fuel)%nat ->
  exists store' tr,
    Collect fuel r store = Some (Returned None, store', tr)
    /\ queried_years tr
       = (fun i : nat => LastYear r - Z.of_nat i)
           <$> seq 0 (Z.to_nat (LastYear r - FirstYear r + 1))
    /\ length (queries tr) = Z.to_nat (LastYear r - FirstYear r + 1).
Proof.
  intros Hfirst Hlast Hclient Hactive Hfuel.
  destruct (Collect_loop_active r client fuel Hfirst Hlast Hclient Hactive
              (LastYear r) QueryResult.zero store ltac:(lia) Hfuel)
    as (store' & tr & Hrun & Hyears).
  exists store', (Logged "fetching repository statistics..." :: tr).
  unfold Collect. rewrite Hrun. split; [done|].
  unfold queried_years in *. cbn [queries]. split; [done|].
  by rewrite <- (length_fmap fst), <- (length_fmap fst), Hyears,
             length_fmap, length_seq.
Qed.

Lemma Collect_covers_active_range_witness :
  GoInt.minInt < FirstYear Sample.hubot
  /\ LastYear Sample.hubot <= GoInt.maxInt
  /\ Client Sample.hubot = Some Sample.always_busy
  /\ always_active Sample.hubot Sample.always_busy
  /\ (Z.to_nat (LastYear Sample.hubot - FirstYear Sample.hubot + 1) < 5)%nat
  /\ exists store' tr,
       Collect 5 Sample.hubot ∅ = Some (Returned None, store', tr)
       /\ queried_years tr = [2024; 2023; 2022; 2021].
Proof.
  assert (H1 : GoInt.minInt < FirstYear Sample.hubot) by (by vm_compute).
  assert (H2 : LastYear Sample.hubot <= GoInt.maxInt) by (by vm_compute).
  assert (H3 : Client Sample.hubot = Some Sample.always_busy) by reflexivity.
  assert (H4 : always_active Sample.hubot Sample.always_busy)
    by (intros year q _; eexists; split; reflexivity).
  assert (H5 : (Z.to_nat (LastYear Sample.hubot
                          - FirstYear Sample.hubot + 1) < 5)%nat)
    by (vm_compute; lia).
  do 5 (split; [assumption|]).
  destruct (Collect_covers_active_range 5 Sample.hubot Sample.always_busy ∅
              H1 H2 H3 H4 H5) as (store' & tr & Hrun & Hyears & _).
  exists store', tr. split; [exact Hrun|]. rewrite Hyears. reflexivity.
Defined.

(** X5. A run of [Collect] (with any fuel) over an empty range, or
    without a client, asks nothing and leaves the map as it was: it
    returns [nil] when [FirstYear] is after [LastYear], and panics
    otherwise; the zero reporter is such a case and panics. *)
Theorem Collect_without_queries (fuel : nat) (r : t)
    (store : gmap string QueryResult.t) :
  LastYear r < FirstYear r \/ Client r = None ->
  exists out,
    Collect (S fuel) r store
    = Some (out, store, [Logged "fetching repository statistics..."])
    /\ (LastYear r < FirstYear r -> out = Returned None)
    /\ (FirstYear r <= LastYear r -> out = Panicked)
    /\ Collect (S fuel) zero store
       = Some (Panicked, store, [Logged "fetching repository statistics..."]).
Proof.
  intros Hcase. unfold Collect. rewrite !Collect_loop_S.
  destruct (Z.geb_spec (LastYear r) (FirstYear r)) as [Hge|Hlt].
  - destruct Hcase as [Hlt| ->]; [lia|].
    eexists. split; [reflexivity|]. split; [lia|]. done.
  - eexists. split; [reflexivity|]. split; [done|]. split; [lia|]. done.
Qed.

Lemma Collect_without_queries_witness :
  (LastYear zero < FirstYear zero \/ Client zero = None)
  /\ Collect 1 zero Fixture.two_users
     = Some (Panicked, Fixture.two_users,
             [Logged "fetching repository statistics..."]).
Proof.
  assert (H1 : LastYear zero < FirstYear zero \/ Client zero = None)
    by (right; reflexivity).
  split; [exact H1|].
  destruct (Collect_without_queries 0 zero Fixture.two_users H1)
    as (out & _ & _ & _ & Hzero).
  exact Hzero.
Defined.

End MoreCollection.

(** *** More on [NewReporter] *)

Section MoreNormalisation.

Import Reporter.

Variables (r : t) (client : option githubv4.Client).
Variables (user : string) (thisYear : Z).

Ltac split_years :=
  repeat match goal with
         | |- context [?a >? ?b] => rewrite (Z.gtb_ltb a b)
         | |- context [?a <? ?b] => destruct (Z.ltb_spec a b); simpl in *
         | |- context [?a =? ?b] => destruct (Z.eqb_spec a b); simpl in *
         end.

(** The bounds that hold whatever the clock reads. *)
Lemma NewReporter_bounds (firstYear lastYear : Z) :
  let result := NewReporter r client user firstYear lastYear thisYear in
  result.1.2 = None ->
  DefaultFirstContributionYear <= FirstYear result.1.1
  /\ LastYear result.1.1 <= thisYear
  /\ User result.1.1 = user /\ Client result.1.1 = client.
Proof.
  unfold NewReporter, DefaultFirstContributionYear.
  destruct (String.eqb user EmptyString); [done|].
  split_years; repeat split; lia.
Qed.

Lemma NewReporter_error_iff (firstYear lastYear : Z) :
  (NewReporter r client user firstYear lastYear thisYear).1.2 = None
  <-> user <> EmptyString.
Proof.
  unfold NewReporter.
  destruct (String.eqb_spec user EmptyString) as [->|Hne]; [done|].
  split_years; done.
Qed.


(** X8. For a user that is not blank and a clock not before 2000, the
    years of the reporter that [NewReporter] returns are a fixed point:
    constructing again from them gives the same reporter and logs
    nothing. *)
Theorem NewReporter_twice (r' : t) (firstYear lastYear : Z) :
  user <> EmptyString ->
  DefaultFirstContributionYear <= thisYear ->
  let rep := (NewReporter r client user firstYear lastYear thisYear).1.1 in
  NewReporter r' client user (FirstYear rep) (LastYear rep) thisYear
  = ((rep, None), []).
Proof.
  intros Huser Hclock. unfold NewReporter, DefaultFirstContributionYear in *.
  destruct (String.eqb_spec user EmptyString) as [|_]; [contradiction|].
  split_years; try lia; reflexivity.
Qed.

End MoreNormalisation.


Lemma NewReporter_twice_witness :
  "octocat" <> EmptyString
  /\ DefaultFirstContributionYear <= 2024
  /\ Reporter.NewReporter Reporter.zero None "octocat" 2000 2024 2024
     = (((Reporter.NewReporter Reporter.zero None "octocat" 1990 0 2024).1.1,
         None), []).
Proof.
  assert (H1 : "octocat" <> EmptyString) by discriminate.
  assert (H2 : DefaultFirstContributionYear <= 2024) by (by vm_compute).
  split; [exact H1|]. split; [exact H2|].
  exact (NewReporter_twice Reporter.zero None "octocat" 2024 Reporter.zero
           1990 0 H1 H2).
Defined.

(** *** More on [Aggregate] *)

Section MoreAggregation.

Import Reporter Totals Observed.

Lemma size_list_to_set_le (l : list string) :
  (size (list_to_set (C := gset string) l) <= length l)%nat.
Proof.
  induction l as [|x l IH]; [by rewrite list_to_set_nil, size_empty|].
  rewrite list_to_set_cons, size_union_alt, size_singleton. simpl.
  pose proof (subseteq_size (list_to_set (C := gset string) l ∖ {[x]})
                (list_to_set l) ltac:(set_solver)).
  lia.
Qed.

Lemma size_union_bounds (X D : gset string) :
  (size D <= size (X ∪ D) <= size X + size D)%nat
  /\ (size (X ∪ D) = size D <-> X ⊆ D).
Proof.
  pose proof (subseteq_size D (X ∪ D) ltac:(set_solver)) as Hlo.
  pose proof (subseteq_size (D ∖ X) D ltac:(set_solver)) as Hdiff.
  pose proof (size_union_alt X D) as Halt.
  split; [lia|]. split.
  - intros Heq.
    assert (D = X ∪ D) as ->
      by (apply set_subseteq_size_eq; [set_solver|lia]).
    set_solver.
  - intros Hsub. by replace (X ∪ D) with D by set_solver.
Qed.

(** The snapshots of a map with one more entry. *)
Lemma snapshots_insert (store : gmap string QueryResult.t) (key : string)
    (q : QueryResult.t) :
  store !! key = None ->
  snapshots (<[key := q]> store) ≡ₚ q :: snapshots store.
Proof.
  intros Hfresh. unfold snapshots.
  by rewrite (map_to_list_insert store key q Hfresh).
Qed.

(** X9. Storing one more snapshot under a key that was free changes what
    [Aggregate] returns in this way: the total of commits grows by its
    commit count and the total of other contributions by its three other
    counts (as [int] additions); the total of repositories does not go
    down, grows by at most the number of names the snapshot lists, and
    stays the same exactly when every such name was listed already. *)
Theorem Aggregate_after_insert (r : t) (store : gmap string QueryResult.t)
    (key : string) (q : QueryResult.t)
    (order order' : list (string * QueryResult.t)) (now : Z) :
  store !! key = None ->
  order ≡ₚ map_to_list store ->
  order' ≡ₚ map_to_list (<[key := q]> store) ->
  let a := (Aggregate r order now).1.1 in
  let a' := (Aggregate r order' now).1.1 in
  AggregatedResults.TotalCommitContributions a'
  = GoInt.add (AggregatedResults.TotalCommitContributions a) (commits q)
  /\ AggregatedResults.TotalOtherContributions a'
     = GoInt.add (AggregatedResults.TotalOtherContributions a) (others q)
  /\ AggregatedResults.TotalRepositories a
     <= AggregatedResults.TotalRepositories a'
  /\ AggregatedResults.TotalRepositories a'
     <= AggregatedResults.TotalRepositories a
        + Z.of_nat (length (repository_names q))
  /\ (AggregatedResults.TotalRepositories a'
      = AggregatedResults.TotalRepositories a
      <-> forall name, name ∈ repository_names q ->
                       name ∈ distinct_names (snapshots store)).
Proof.
  intros Hfresh Hperm Hperm'.
  apply visited_snapshots in Hperm, Hperm'.
  rewrite (snapshots_insert store key q Hfresh) in Hperm'.
  rewrite !Aggregate_fields. cbn zeta. simpl.
  rewrite (sum_over_perm commits _ _ Hperm'), (sum_over_perm others _ _ Hperm'),
          (distinct_names_perm _ _ Hperm'),
          (sum_over_perm commits _ _ Hperm), (sum_over_perm others _ _ Hperm),
          (distinct_names_perm _ _ Hperm), distinct_names_cons.
  unfold GoInt.add. rewrite !wrap_add_l. simpl.
  destruct (size_union_bounds (list_to_set (repository_names q))
              (distinct_names (snapshots store))) as (Hsize & Hsame).
  pose proof (size_list_to_set_le (repository_names q)) as Hnames.
  split; [f_equal; lia|]. split; [f_equal; lia|].
  split; [lia|]. split; [lia|].
  rewrite Nat2Z.inj_iff, Hsame. set_solver.
Qed.

Lemma Aggregate_after_insert_witness :
  (∅ : gmap string QueryResult.t) !! "B-2024" = None
  /\ [] ≡ₚ map_to_list (∅ : gmap string QueryResult.t)
  /\ [("B-2024", Sample.b_2024)]
     ≡ₚ map_to_list (<["B-2024" := Sample.b_2024]>
                       (∅ : gmap string QueryResult.t))
  /\ AggregatedResults.TotalCommitContributions
       (Aggregate zero [("B-2024", Sample.b_2024)] 0).1.1
     = GoInt.add 0 5.
Proof.
  assert (H1 : (∅ : gmap string QueryResult.t) !! "B-2024" = None)
    by reflexivity.
  assert (H2 : [] ≡ₚ map_to_list (∅ : gmap string QueryResult.t))
    by (by rewrite map_to_list_empty).
  assert (H3 : [("B-2024", Sample.b_2024)]
               ≡ₚ map_to_list (<["B-2024" := Sample.b_2024]>
                                 (∅ : gmap string QueryResult.t)))
    by (by rewrite insert_empty, map_to_list_singleton).
  split; [exact H1|]. split; [exact H2|]. split; [exact H3|].
  destruct (Aggregate_after_insert zero ∅ "B-2024" Sample.b_2024 []
              [("B-2024", Sample.b_2024)] 0 H1 H2 H3) as [Hcommits _].
  exact Hcommits.
Defined.

Lemma sum_over_same {A : Type} (f : A -> Z) (R : A -> A -> Prop)
    (l1 l2 : list A) :
  (forall x y, R x y -> f x = f y) ->
  Forall2 R l1 l2 -> sum_over f l1 = sum_over f l2.
Proof.
  intros Hf. induction 1 as [|x y l1 l2 Hxy _ IH]; simpl; [done|].
  by rewrite (Hf _ _ Hxy), IH.
Qed.

Lemma distinct_names_same (qs1 qs2 : list QueryResult.t) :
  Forall2 same_counted qs1 qs2 -> distinct_names qs1 = distinct_names qs2.
Proof.
  induction 1 as [|x y l1 l2 (_ & _ & Hnames) _ IH]; [done|].
  by rewrite !distinct_names_cons, Hnames, IH.
Qed.

(** X10. [Aggregate] reads nothing of a snapshot but its commit count, its
    three other counts (through their sum) and the names in its four
    lists: two visits whose snapshots agree on these, one by one, give the
    same result at the same clock, whatever the keys, logins, flags,
    restricted counts, per-category repository counts, addresses and
    per-repository counts are, and whoever the receivers are. *)
Theorem Aggregate_same_counted (r1 r2 : t)
    (order1 order2 : list (string * QueryResult.t)) (now : Z) :
  Forall2 (fun e1 e2 => same_counted e1.2 e2.2) order1 order2 ->
  (Aggregate r1 order1 now).1 = (Aggregate r2 order2 now).1.
Proof.
  intros Hsame. rewrite !Aggregate_fields. simpl.
  assert (Hsame' : Forall2 same_counted order1.*2 order2.*2)
    by (by apply Forall2_fmap).
  rewrite (sum_over_same commits same_counted _ _ ltac:(by intros ? ? (?&?&?))
             Hsame'),
          (sum_over_same others same_counted _ _ ltac:(by intros ? ? (?&?&?))
             Hsame').
  by rewrite (distinct_names_same _ _ Hsame').
Qed.

Lemma Aggregate_same_counted_witness :
  Forall2 (fun e1 e2 => same_counted e1.2 e2.2)
    [("A-2024", Fixture.snapshot "A" true 10 2 1 0
                  [Fixture.repository "x" "https://github.com/A/x" 6] [] [] [])]
    [("whatever", Fixture.snapshot "" false 10 0 0 3
                  [Fixture.repository "x" "https://example.org/x" 0] [] [] [])]
  /\ (Aggregate Fixture.octocat
        [("A-2024", Fixture.snapshot "A" true 10 2 1 0
                  [Fixture.repository "x" "https://github.com/A/x" 6] [] [] [])]
        7).1
     = (Aggregate zero
        [("whatever", Fixture.snapshot "" false 10 0 0 3
                  [Fixture.repository "x" "https://example.org/x" 0] [] [] [])]
        7).1.
Proof.
  assert (H1 : Forall2 (fun e1 e2 => same_counted e1.2 e2.2)
    [("A-2024", Fixture.snapshot "A" true 10 2 1 0
                  [Fixture.repository "x" "https://github.com/A/x" 6] [] [] [])]
    [("whatever", Fixture.snapshot "" false 10 0 0 3
                  [Fixture.repository "x" "https://example.org/x" 0] [] [] [])])
    by (repeat constructor).
  split; [exact H1|].
  exact (Aggregate_same_counted Fixture.octocat zero _ _ 7 H1).
Defined.

Lemma size_distinct_names_le (qs : list QueryResult.t) :
  (size (distinct_names qs)
   <= length (qs ≫= repository_names))%nat.
Proof. apply size_list_to_set_le. Qed.

(** X11. Whatever the map holds, the two sums that [Aggregate] returns
    are [int]s, and the total of repositories lies between 0 and the
    number of entries of all the lists of repositories; it is 0 exactly
    when no snapshot lists a repository, so an empty map gives three
    zeros beside the timestamp. *)
Theorem Aggregate_bounds (r : t) (order : list (string * QueryResult.t))
    (now : Z) :
  let a := (Aggregate r order now).1.1 in
  GoInt.in_range (AggregatedResults.TotalCommitContributions a)
  /\ GoInt.in_range (AggregatedResults.TotalOtherContributions a)
  /\ 0 <= AggregatedResults.TotalRepositories a
     <= Z.of_nat (length (order.*2 ≫= repository_names))
  /\ (AggregatedResults.TotalRepositories a = 0
      <-> forall q, q ∈ order.*2 -> repository_names q = [])
  /\ (order = [] ->
      (Aggregate r order now).1
      = ({| AggregatedResults.Timestamp := GoInt.wrap now;
            AggregatedResults.TotalCommitContributions := 0;
            AggregatedResults.TotalRepositories := 0;
            AggregatedResults.TotalOtherContributions := 0 |}, None)).
Proof.
  rewrite Aggregate_fields. cbn zeta. simpl.
  split; [apply wrap_range|]. split; [apply wrap_range|].
  pose proof (size_distinct_names_le order.*2) as Hle.
  split; [lia|]. split; [|by intros ->].
  change 0 with (Z.of_nat 0). rewrite Nat2Z.inj_iff, size_empty_iff.
  unfold distinct_names. split.
  - intros Hempty q Hq. destruct (repository_names q) as [|name l] eqn:Hnames;
      [done|].
    exfalso. apply (not_elem_of_empty (C := gset string) name).
    rewrite <- Hempty. apply elem_of_list_to_set, list_elem_of_bind.
    exists q. rewrite Hnames. split; [left|done].
  - intros Hnone. apply set_equiv. intros name.
    rewrite elem_of_list_to_set, list_elem_of_bind. split; [|set_solver].
    intros (q & Hin & Hq). rewrite (Hnone q Hq) in Hin.
    by apply elem_of_nil in Hin.
Qed.

End MoreAggregation.

(** *** More on the credential loop of [main] *)

Section MoreMain.

Import Reporter Observed.

Lemma queries_logged (lines : list string) : queries (Logged <$> lines) = [].
Proof. by induction lines. Qed.

Lemma asked_logged (lines : list string) : asked (Logged <$> lines) = [].
Proof. by induction lines. Qed.


Lemma queries_asked (tr : Trace) (year : Z) (res : QueryResult.t)
    (err : option error) :
  (year, res, err) ∈ queries tr -> exists login, (login, year) ∈ asked tr.
Proof.
  induction tr as [|[line|login y res' err'] tr IH]; simpl.
  - intros Hin. by apply elem_of_nil in Hin.
  - exact IH.
  - intros [[= -> _ _]|Hin]%elem_of_cons.
    + exists login. left.
    + destruct (IH Hin) as [login' Hin']. exists login'. by right.
Qed.

Lemma no_query_failed_app (tr1 tr2 : Trace) :
  no_query_failed (tr1 ++ tr2) <-> no_query_failed tr1 /\ no_query_failed tr2.
Proof.
  unfold no_query_failed. rewrite queries_app. split.
  - intros Hall. split; intros year res err Hin; apply (Hall year res err);
      apply elem_of_app; auto.
  - intros [H1 H2] year res err [Hin|Hin]%elem_of_app; eauto.
Qed.

Lemma no_query_failed_logged (lines : list string) :
  no_query_failed (Logged <$> lines).
Proof.
  intros year res err Hin. rewrite queries_logged in Hin.
  by apply elem_of_nil in Hin.
Qed.

(** [NewReporter] only logs. *)
Lemma NewReporter_logs_only (r : t) (client : option githubv4.Client)
    (user : string) (firstYear lastYear thisYear : Z) :
  exists lines,
    (NewReporter r client user firstYear lastYear thisYear).2
    = Logged <$> lines.
Proof.
  unfold NewReporter. destruct (String.eqb user EmptyString); [by exists []|].
  destruct (lastYear >? thisYear);
    match goal with
    | |- context [(?a =? 0) || (?a <? ?b)] => destruct ((a =? 0) || (a <? b))
    end; simpl;
    [by eexists [_; _]|by eexists [_]|by eexists [_]|by exists []].
Qed.

(** [Report] only logs. *)
Lemma Report_logs_only (r : t) (order : list (string * QueryResult.t))
    (now : Z) :
  (Report r order now).2 = Logged <$> order.*1.
Proof. unfold Report. by rewrite Aggregate_fields. Qed.

(** One run of [Collect] for a reporter of [NewReporter]: its calls and
    what it stores. *)
Lemma Collect_in_range (fuel : nat) (r : t)
    (store : gmap string QueryResult.t) out store' tr :
  GoInt.minInt < FirstYear r -> LastYear r <= GoInt.maxInt ->
  Collect fuel r store = Some (out, store', tr) ->
  (forall login year,
      (login, year) ∈ asked tr ->
      login = User r /\ FirstYear r <= year <= LastYear r)
  /\ (forall key snapshot,
        store' !! key = Some snapshot ->
        store !! key = Some snapshot
        \/ (QueryResult.Login (QueryResult.User snapshot) <> EmptyString
            /\ exists year, FirstYear r <= year <= LastYear r
                            /\ key = userYear (User r) year)).
Proof.
  intros Hfirst Hlast. unfold Collect.
  destruct (Collect_loop fuel r (LastYear r) QueryResult.zero store)
    as [[[out1 store1] tr1]|] eqn:Hrun; [|done].
  intros [= <- <- <-]. cbn [asked].
  pose proof (Collect_loop_asked r fuel Hfirst _ _ _ _ _ _ Hlast Hrun)
    as Hasked.
  split; [exact Hasked|].
  intros key snapshot Hkey.
  destruct (Collect_loop_store r fuel _ _ _ _ _ _ Hrun) as (Hfrom & _).
  destruct (Hfrom _ _ Hkey) as [Hold|(Hlogin & year & Hin & ->)]; [by left|].
  right. split; [done|]. exists year. split; [|done].
  apply queries_asked in Hin as [login Hin].
  by destruct (Hasked _ _ Hin).
Qed.

(** The credential loop, from any reporter and map on. *)
Lemma credentials_loop_ends (fuel : nat) (github : string -> githubv4.Client)
    (config : Main.Configuration) (thisYear : Z)
    (credentials : list Credential) :
  thisYear <= GoInt.maxInt ->
  forall (reporter : t) (store : gmap string QueryResult.t) out final tr,
  Main.credentials_loop fuel github config thisYear credentials reporter store
  = Some (out, final, tr) ->
  (out = Exited 1 \/ exists rep, out = Returned rep)
  /\ ((exists rep, out = Returned rep)
      <-> Forall (fun c => Username c <> EmptyString) credentials
          /\ no_query_failed tr)
  /\ (forall login year,
        (login, year) ∈ asked tr ->
        (exists c, c ∈ credentials /\ Username c = login)
        /\ DefaultFirstContributionYear <= year <= thisYear)
  /\ (forall key snapshot,
        final !! key = Some snapshot ->
        store !! key = Some snapshot
        \/ (QueryResult.Login (QueryResult.User snapshot) <> EmptyString
            /\ exists c year,
                 c ∈ credentials
                 /\ DefaultFirstContributionYear <= year <= thisYear
                 /\ key = userYear (Username c) year)).
Proof.
  intros Hclock.
  induction credentials as [|c credentials IH];
    intros reporter store out final tr Hrun.
  { injection Hrun as <- <- <-. split; [eauto|]. split.
    - split; [intros _|eauto]. split; [constructor|].
      intros ? ? ? Hin. by apply elem_of_nil in Hin.
    - split; [|auto]. intros ? ? Hin. by apply elem_of_nil in Hin. }
  cbn [Main.credentials_loop] in Hrun.
  pose proof (NewReporter_bounds reporter (Some (github (Token c)))
                (Username c) thisYear (Main.firstReportingYear config)
                (Main.lastReportingYear config)) as Hbounds.
  pose proof (NewReporter_error_iff reporter (Some (github (Token c)))
                (Username c) thisYear (Main.firstReportingYear config)
                (Main.lastReportingYear config)) as Herror.
  destruct (NewReporter_logs_only reporter (Some (github (Token c)))
              (Username c) (Main.firstReportingYear config)
              (Main.lastReportingYear config) thisYear) as [lines Hlines].
  destruct (NewReporter reporter (Some (github (Token c))) (Username c)
              (Main.firstReportingYear config)
              (Main.lastReportingYear config) thisYear)
    as [[rep err] warned]. simpl in Hbounds, Herror, Hlines. subst warned.
  destruct err as [err|].
  { injection Hrun as <- <- <-.
    rewrite asked_app, asked_logged. simpl.
    split; [auto|]. split; [|split; [|auto]].
    - split; [by intros [rep' ?]|].
      intros [Hall _]. apply Forall_cons in Hall as [Hc _].
      by apply Herror in Hc.
    - intros ? ? Hin. by apply elem_of_nil in Hin. }
  destruct (Hbounds eq_refl) as (Hfloor & Hnow & Huser & Hclient).
  assert (Hblank : Username c <> EmptyString) by (by apply Herror).
  assert (Hfirst : GoInt.minInt < FirstYear rep)
    by (unfold DefaultFirstContributionYear, GoInt.minInt, GoInt.intSize in *;
        lia).
  assert (Hlast : LastYear rep <= GoInt.maxInt) by lia.
  destruct (Collect fuel rep store) as [[[out1 store1] collected]|] eqn:Hcollect;
    [|done].
  destruct (Collect_in_range _ _ _ _ _ _ Hfirst Hlast Hcollect)
    as (Hasked & Hstored).
  pose proof (Collect_ends_three_ways_aux fuel rep store _ _ _ Hcollect)
    as Hends.
  destruct out1 as [err| |].
  - destruct Hends as [[[= ->] Hok]|[(? & ? & ? & [=] & _)|([=] & _)]].
    destruct (Main.credentials_loop fuel github config thisYear credentials
                rep store1) as [[[out2 final2] rest]|] eqn:Hrest; [|done].
    injection Hrun as <- <- <-.
    destruct (IH _ _ _ _ _ Hrest) as (Hstatus & Hiff & Hasked' & Hstored').
    rewrite !asked_app, asked_logged, app_nil_l. simpl.
    split; [exact Hstatus|]. split; [|split].
    + rewrite Hiff, Forall_cons, !no_query_failed_app. simpl.
      pose proof (no_query_failed_logged lines). tauto.
    + intros login year [Hin|Hin]%elem_of_app.
      * destruct (Hasked _ _ Hin) as [-> ?]. split; [|lia].
        exists c. split; [left|done].
      * destruct (Hasked' _ _ Hin) as [(c' & Hc' & <-) ?]. split; [|done].
        exists c'. split; [by right|done].
    + intros key snapshot Hkey.
      destruct (Hstored' _ _ Hkey)
        as [Hold|(Hlogin & c' & year & Hc' & Hyear & ->)].
      * destruct (Hstored _ _ Hold) as [|(Hlogin & year & Hyear & ->)];
          [by left|].
        right. split; [done|]. exists c, year. rewrite Huser.
        split; [left|]. split; [lia|done].
      * right. split; [done|]. exists c', year. split; [by right|done].
  - injection Hrun as <- <- <-.
    destruct Hends as [[[=] _]|[(yr & res & e & [= ->] & Hlast' & _)|([=] & _)]].
    rewrite asked_app, asked_logged, app_nil_l.
    split; [auto|]. split; [|split].
    + split; [by intros [rep' ?]|].
      intros [_ Hok]. apply no_query_failed_app in Hok as [_ Hok].
      apply last_Some_elem_of in Hlast'. by apply Hok in Hlast'.
    + intros login year Hin. destruct (Hasked _ _ Hin) as [-> ?].
      split; [|lia]. exists c. split; [left|done].
    + intros key snapshot Hkey.
      destruct (Hstored _ _ Hkey) as [|(Hlogin & year & Hyear & ->)];
        [by left|].
      right. split; [done|]. exists c, year. rewrite Huser.
      split; [left|]. split; [lia|done].
  - destruct Hends as [[[=] _]|[(? & ? & ? & [=] & _)|(_ & Hnil & _)]].
    congruence.
Qed.



(** X13. With the year of the clock an [int], a run of [main] that ends
    either returns or ends the process with status 1; it never panics. It
    returns exactly when no user name in the list is blank and no call of
    the client failed: one blank name or one failed call, anywhere in the
    list, and the run ends with status 1. *)
Theorem main_exit_status (fuel : nat) (github : string -> githubv4.Client)
    (config : Main.Configuration) (thisYear : Z) (credentials : Credentials)
    (range : gmap string QueryResult.t -> list (string * QueryResult.t))
    (now : Z) out final tr :
  thisYear <= GoInt.maxInt ->
  Main.main fuel github config thisYear credentials range now
  = Some (out, final, tr) ->
  (out = Returned tt \/ out = Exited 1)
  /\ (out = Returned tt
      <-> Forall (fun c => Username c <> EmptyString) credentials
          /\ no_query_failed tr).
Proof.
  intros Hclock. unfold Main.main.
  destruct (Main.credentials_loop fuel github config thisYear credentials
              zero ∅) as [[[out1 final1] tr1]|] eqn:Hloop; [|done].
  destruct (credentials_loop_ends _ _ _ _ _ Hclock _ _ _ _ _ Hloop)
    as (Hstatus & Hiff & _).
  destruct out1 as [rep| |].
  - pose proof (Report_logs_only rep (range final1) now) as Hlog.
    destruct (Report rep (range final1) now) as [[json err] reported].
    simpl in Hlog. subst reported. intros [= <- <- <-].
    split; [by left|]. split; [intros _|done].
    destruct Hiff as [Hiff _]. destruct (Hiff ltac:(eauto)) as [Hall Hok].
    split; [done|]. rewrite !no_query_failed_app. split; [done|].
    split; [apply no_query_failed_logged|].
    apply (no_query_failed_logged [json]).
  - intros [= <- <- <-].
    destruct Hstatus as [[= ->]|[rep [=]]]. split; [by right|].
    split; [done|]. intros Hboth. apply Hiff in Hboth as [rep [=]].
  - destruct Hstatus as [[=]|[rep [=]]].
Qed.

Lemma main_exit_status_witness :
  2024 <= GoInt.maxInt
  /\ exists final tr,
       Main.main 26 Fixture.github Fixture.config 2024 Sample.blank_second
                 map_to_list 1730498450
       = Some (Exited 1, final, tr).
Proof.
  assert (H1 : 2024 <= GoInt.maxInt) by (by vm_compute).
  split; [exact H1|].
  assert (Hrun : exists out final tr,
            Main.main 26 Fixture.github Fixture.config 2024
                      Sample.blank_second map_to_list 1730498450
            = Some (out, final, tr))
    by (eexists _, _, _; vm_compute; reflexivity).
  destruct Hrun as (out & final & tr & Hrun). exists final, tr.
  destruct (main_exit_status _ _ _ _ _ _ _ _ _ _ H1 Hrun)
    as ([->| ->] & Hiff); [|exact Hrun].
  destruct Hiff as [Hiff _]. destruct (Hiff eq_refl) as [Hall _].
  apply Forall_cons in Hall as [_ Hall].
  apply Forall_cons in Hall as [Hblank _]. by destruct Hblank.
Defined.



(** X15. With the year of the clock an [int], every entry of the map at
    the end of a run of [main] is an answer with a login that is not
    empty, stored under the key [<user>-<year>] of a user name of the list
    and a year from 2000 to the year of the clock. *)
Theorem main_store_entries (fuel : nat) (github : string -> githubv4.Client)
    (config : Main.Configuration) (thisYear : Z) (credentials : Credentials)
    (range : gmap string QueryResult.t -> list (string * QueryResult.t))
    (now : Z) out final tr :
  thisYear <= GoInt.maxInt ->
  Main.main fuel github config thisYear credentials range now
  = Some (out, final, tr) ->
  forall key snapshot,
    final !! key = Some snapshot ->
    QueryResult.Login (QueryResult.User snapshot) <> EmptyString
    /\ exists c year,
         c ∈ credentials
         /\ DefaultFirstContributionYear <= year <= thisYear
         /\ key = userYear (Username c) year.
Proof.
  intros Hclock. unfold Main.main.
  destruct (Main.credentials_loop fuel github config thisYear credentials
              zero ∅) as [[[out1 final1] tr1]|] eqn:Hloop; [|done].
  destruct (credentials_loop_ends _ _ _ _ _ Hclock _ _ _ _ _ Hloop)
    as (_ & _ & _ & Hstored).
  intros Hrun.
  assert (Hfinal : final = final1).
  { destruct out1 as [rep| |].
    - destruct (Report rep (range final1) now) as [[json err] reported].
      by injection Hrun as _ <- _.
    - by injection Hrun as _ <- _.
    - by injection Hrun as _ <- _. }
  subst final1. intros key snapshot Hkey.
  by destruct (Hstored _ _ Hkey) as [Hold|Hnew].
Qed.

Lemma main_store_entries_witness :
  2024 <= GoInt.maxInt
  /\ exists out final tr snapshot,
       Main.main 26 Fixture.github Fixture.config 2024 Sample.bob_and_carol
                 map_to_list 1730498450
       = Some (out, final, tr)
       /\ final !! "carol-2022" = Some snapshot
       /\ QueryResult.Login (QueryResult.User snapshot) <> EmptyString.
Proof.
  assert (H1 : 2024 <= GoInt.maxInt) by (by vm_compute).
  split; [exact H1|].
  assert (Hrun : exists out final tr snapshot,
            Main.main 26 Fixture.github Fixture.config 2024
                      Sample.bob_and_carol map_to_list 1730498450
            = Some (out, final, tr)
            /\ final !! "carol-2022" = Some snapshot)
    by (eexists _, _, _, _; vm_compute; split; reflexivity).
  destruct Hrun as (out & final & tr & snapshot & Hrun & Hkey).
  exists out, final, tr, snapshot. split; [exact Hrun|]. split; [exact Hkey|].
  by destruct (main_store_entries _ _ _ _ _ _ _ _ _ _ H1 Hrun _ _ Hkey).
Defined.

End MoreMain.

(** *** The JSON of [Report] *)

Section MoreReport.

Import Reporter Observed.

Lemma digits_no_comma (d : Decimal.uint) :
  occurs (Ascii.ascii_of_nat 44) (NilEmpty.string_of_uint d) = false.
Proof. induction d; simpl; by rewrite ?IHd. Qed.

Lemma digits_no_newline (d : Decimal.uint) :
  occurs (Ascii.ascii_of_nat 10) (NilEmpty.string_of_uint d) = false.
Proof. induction d; simpl; by rewrite ?IHd. Qed.

Lemma Itoa_no_comma (z : Z) :
  occurs (Ascii.ascii_of_nat 44) (strconv.Itoa z) = false.
Proof.
  unfold strconv.Itoa.
  destruct z as [|p|p]; [done|..]; simpl;
    pose proof (Unsigned.to_uint_nonnil p) as Hnil;
    (destruct (Pos.to_uint p) eqn:Hp; [done|..]); rewrite <- Hp;
    unfold NilZero.string_of_uint; rewrite Hp; rewrite <- Hp;
    apply digits_no_comma.
Qed.

Lemma Itoa_no_newline (z : Z) :
  occurs (Ascii.ascii_of_nat 10) (strconv.Itoa z) = false.
Proof.
  unfold strconv.Itoa.
  destruct z as [|p|p]; [done|..]; simpl;
    pose proof (Unsigned.to_uint_nonnil p) as Hnil;
    (destruct (Pos.to_uint p) eqn:Hp; [done|..]); rewrite <- Hp;
    unfold NilZero.string_of_uint; rewrite Hp; rewrite <- Hp;
    apply digits_no_newline.
Qed.

(** Splitting at the first occurrence of a character is unambiguous. *)
Lemma split_at_first (c : Ascii.ascii) (u1 u2 d1 d2 : string) :
  occurs c u1 = false -> occurs c u2 = false ->
  u1 +:+ String c d1 = u2 +:+ String c d2 -> u1 = u2 /\ d1 = d2.
Proof.
  revert u2. induction u1 as [|c1 u1 IH]; intros [|c2 u2]; simpl.
  - by intros _ _ [= ->].
  - intros _ Hu2 [= <- _]. by rewrite Ascii.eqb_refl in Hu2.
  - intros Hu1 _ [= -> _]. by rewrite Ascii.eqb_refl in Hu1.
  - intros [_ Hu1]%orb_false_elim [_ Hu2]%orb_false_elim [= -> Heq].
    by destruct (IH _ Hu1 Hu2 Heq) as [-> ->].
Qed.

(** The text of [MarshalIndent], number by number. *)
Lemma MarshalIndent_text (a : AggregatedResults.t) :
  exists p0 p1 p2 p3 : string,
    (forall b, MarshalIndent b
       = p0 +:+ strconv.Itoa (AggregatedResults.Timestamp b)
         +:+ String (Ascii.ascii_of_nat 44)
        (p1 +:+ strconv.Itoa (AggregatedResults.TotalCommitContributions b)
         +:+ String (Ascii.ascii_of_nat 44)
        (p2 +:+ strconv.Itoa (AggregatedResults.TotalRepositories b)
         +:+ String (Ascii.ascii_of_nat 44)
        (p3 +:+ strconv.Itoa (AggregatedResults.TotalOtherContributions b)
         +:+ String (Ascii.ascii_of_nat 10) "}")))).
Proof.
  pose (quote := String (Ascii.ascii_of_nat 34) EmptyString).
  pose (newline := String (Ascii.ascii_of_nat 10) EmptyString).
  exists ("{" +:+ newline +:+ "  " +:+ quote +:+ "timestamp" +:+ quote +:+ ": "),
    (newline +:+ "  " +:+ quote +:+ "totalCommitContributions" +:+ quote
     +:+ ": "),
    (newline +:+ "  " +:+ quote +:+ "totalRepositories" +:+ quote +:+ ": "),
    (newline +:+ "  " +:+ quote +:+ "totalOtherContributions" +:+ quote
     +:+ ": ").
  intros b. reflexivity.
Qed.

(** X12. The JSON text that [Report] produces determines the four numbers
    of the result: two results with the same text are the same result. *)
Theorem MarshalIndent_injective (a b : AggregatedResults.t) :
  MarshalIndent a = MarshalIndent b -> a = b.
Proof.
  destruct (MarshalIndent_text a) as (p0 & p1 & p2 & p3 & Htext).
  rewrite !Htext. intros Heq.
  apply String.app_inj in Heq.
  apply split_at_first in Heq as [H1 Heq]; [|apply Itoa_no_comma..].
  apply String.app_inj in Heq.
  apply split_at_first in Heq as [H2 Heq]; [|apply Itoa_no_comma..].
  apply String.app_inj in Heq.
  apply split_at_first in Heq as [H3 Heq]; [|apply Itoa_no_comma..].
  apply String.app_inj in Heq.
  apply split_at_first in Heq as [H4 _]; [|apply Itoa_no_newline..].
  apply Itoa_inj in H1, H2, H3, H4.
  destruct a, b. simpl in *. congruence.
Qed.

Lemma MarshalIndent_injective_witness :
  MarshalIndent (Aggregate zero (map_to_list Fixture.two_users) 7).1.1
  = MarshalIndent (Aggregate Fixture.octocat
                     (reverse (map_to_list Fixture.two_users)) 7).1.1
  /\ (Aggregate zero (map_to_list Fixture.two_users) 7).1.1
     = (Aggregate Fixture.octocat
          (reverse (map_to_list Fixture.two_users)) 7).1.1.
Proof.
  assert (H1 :
    MarshalIndent (Aggregate zero (map_to_list Fixture.two_users) 7).1.1
    = MarshalIndent (Aggregate Fixture.octocat
                       (reverse (map_to_list Fixture.two_users)) 7).1.1)
    by (vm_compute; reflexivity).
  split; [exact H1|]. exact (MarshalIndent_injective _ _ H1).
Defined.

End MoreReport.

(** *** A user the service does not know *)

Section UnknownUser.

Import Reporter Observed.

(** X16. When the first answer comes without an error but with an empty
    login and no activity in the past (what a user the service does not
    resolve looks like in the struct), [Collect] returns [nil] after that
    single call, whatever the range, and the map is left as it was. *)
Theorem Collect_unresolved_user (fuel : nat) (r : t)
    (client : githubv4.Client) (store : gmap string QueryResult.t)
    (res : QueryResult.t) :
  Client r = Some client -> FirstYear r <= LastYear r ->
  client (User r) (LastYear r) QueryResult.zero = (res, None) ->
  QueryResult.Login (QueryResult.User res) = EmptyString ->
  hasActivityInThePast res = false ->
  Collect (S fuel) r store
  = Some (Returned None, store,
          [Logged "fetching repository statistics...";
           Queried (User r) (LastYear r) res None])
  /\ asked [Logged "fetching repository statistics...";
            Queried (User r) (LastYear r) res None]
     = [(User r, LastYear r)].
Proof.
  intros Hclient Hrange Hq Hlogin Hflag. split; [|done].
  unfold Collect. rewrite Collect_loop_S, Hclient, Hq.
  destruct (Z.geb_spec (LastYear r) (FirstYear r)); [|lia].
  unfold store_round. rewrite Hlogin, Hflag. reflexivity.
Qed.

Lemma Collect_unresolved_user_witness :
  Client {| Client := Some (fun _ _ q => (q, None)); User := "ghost";
            LastYear := 2024; FirstYear := 2000 |}
  = Some (fun _ _ q => (q, None))
  /\ 2000 <= 2024
  /\ Collect 1 {| Client := Some (fun _ _ q => (q, None)); User := "ghost";
                  LastYear := 2024; FirstYear := 2000 |} Fixture.two_users
     = Some (Returned None, Fixture.two_users,
             [Logged "fetching repository statistics...";
              Queried "ghost" 2024 QueryResult.zero None]).
Proof.
  split; [reflexivity|]. split; [lia|].
  exact (proj1 (Collect_unresolved_user 0
           {| Client := Some (fun _ _ q => (q, None)); User := "ghost";
              LastYear := 2024; FirstYear := 2000 |}
           (fun _ _ q => (q, None)) Fixture.two_users QueryResult.zero
           eq_refl ltac:(simpl; lia) eq_refl eq_refl eq_refl)).
Defined.

End UnknownUser.
